(** * rag-backend: retrieval, citation and grounding pipeline

    A shallow embedding of the Python backend ([storage.py], [rag.py],
    [bedrock_llm.py], [main.py]) together with the properties its
    specification states about it.

    Conventions of the embedding:
    - a Python [str] is a list of Unicode code points ([list N]), so that
      [len], slicing and the one-character ellipsis behave as in Python;
    - a Python [int] is a [Z];
    - a [dict] with free keys (document metadata) is a [gmap]; a [dict] with
      a fixed set of keys (a paper record, a citation) is a record;
    - a call that may raise returns a [result];
    - the external capabilities (PDF loader, text splitter, embeddings and
      FAISS index, Bedrock client) are the fields of type classes. *)

From Stdlib Require Import ZArith String Ascii DecimalString DecimalPos DecimalZ.
From stdpp Require Import gmap list sorting.

Local Open Scope Z_scope.

(* ===================================================================== *)
(** ** Python values *)
(* ===================================================================== *)

Module Py.

(** A Python string: a sequence of code points. *)
Abbreviation str := (list N).

(** ASCII literal to Python string. *)
Fixpoint u (s : string) : str :=
  match s with
  | EmptyString => []
  | String a s' => N_of_ascii a :: u s'
  end.
Arguments u s%_string.

(** The newline and the double quote. *)
Definition nl : str := [10%N].
Definition dq : str := [34%N].

(** The values found in metadata dictionaries and citation records. *)
Inductive value :=
  | VNone
  | VInt (z : Z)
  | VStr (s : str).

#[global] Instance value_eq_dec : EqDecision value.
Proof. solve_decision. Defined.

(** Exceptions carry the name of the operation that raised. *)
Inductive exn :=
  | Exception (what : str).

Inductive result (A : Type) :=
  | Ok (a : A)
  | Raise (e : exn).
Arguments Ok {A} a.
Arguments Raise {A} e.

(** Sequencing: the first exception raised ends the computation. *)
#[global] Instance result_bind : MBind result := fun A B k r =>
  match r with
  | Ok a => k a
  | Raise e => Raise e
  end.

#[global] Instance result_ret : MRet result := fun A a => Ok a.

(** [str(i)] for an integer. *)
Definition str_of_int (z : Z) : str := u (NilZero.string_of_int (Z.to_int z)).

(** [str(v)], as an f-string renders a value. *)
Definition format_value (v : value) : str :=
  match v with
  | VNone => u "None"
  | VInt z => str_of_int z
  | VStr s => s
  end.

(** [f"{i:05d}"] for a non-negative [i]: zero-padded to width five. *)
Definition format_05d (i : nat) : str :=
  let d := str_of_int (Z.of_nat i) in
  replicate (5 - length d) 48%N ++ d.

(** Truthiness: [None], [0] and the empty string are falsy. *)
Definition truthy (v : value) : bool :=
  match v with
  | VNone => false
  | VInt z => negb (z =? 0)
  | VStr s => negb (bool_decide (s = []))
  end.

(** [str.isspace] on one code point (CPython's whitespace table). *)
Definition isspace (c : N) : bool :=
  ((9 <=? c) && (c <=? 13) || (28 <=? c) && (c <=? 32) || (c =? 133)
   || (c =? 160) || (c =? 5760) || (8192 <=? c) && (c <=? 8202)
   || (c =? 8232) || (c =? 8233) || (c =? 8239) || (c =? 8287)
   || (c =? 12288))%N.

Fixpoint lstrip (s : str) : str :=
  match s with
  | [] => []
  | c :: s' => if isspace c then lstrip s' else s
  end.

Definition rstrip (s : str) : str := reverse (lstrip (reverse s)).

(** [s.strip()] *)
Definition strip (s : str) : str := rstrip (lstrip s).

(** [sep.join(parts)] *)
Fixpoint join (sep : str) (parts : list str) : str :=
  match parts with
  | [] => []
  | [p] => p
  | p :: rest => p ++ sep ++ join sep rest
  end.

(** [s.split(c)] for a one-character separator: never the empty list. *)
Fixpoint split (c : N) (s : str) : list str :=
  match s with
  | [] => [[]]
  | x :: s' =>
      if (x =? c)%N then [] :: split c s'
      else match split c s' with
           | [] => [[x]]
           | p :: ps => (x :: p) :: ps
           end
  end.

Fixpoint startswith (p s : str) : bool :=
  match p, s with
  | [], _ => true
  | _ :: _, [] => false
  | a :: p', b :: s' => (a =? b)%N && startswith p' s'
  end.

(** [s.replace(old, new)] for a non-empty [old]; [skip] counts the
    characters of a match still to be dropped. *)
Fixpoint replace_from (old new : str) (skip : nat) (s : str) : str :=
  match s with
  | [] => []
  | c :: s' =>
      match skip with
      | S n => replace_from old new n s'
      | O =>
          if startswith old s
          then new ++ replace_from old new (length old - 1) s'
          else c :: replace_from old new 0 s'
      end
  end.

Definition replace (old new s : str) : str := replace_from old new 0 s.

(** The ASCII literal of a Python string of ASCII characters, and the
    number that a decimal numeral denotes. They read back what [str_of_int]
    prints and are used on numerals only. *)
Fixpoint ascii_literal (s : str) : string :=
  match s with
  | [] => EmptyString
  | c :: s' => String (ascii_of_N c) (ascii_literal s')
  end.

Definition numeral_value (s : str) : option Z :=
  Z.of_int <$> NilZero.int_of_string (ascii_literal s).

(** [l[:k]]: a negative bound counts from the end. *)
Definition slice_to {A} (k : Z) (l : list A) : list A :=
  if 0 <=? k then take (Z.to_nat k) l
  else take (Z.to_nat (Z.of_nat (length l) + k)) l.

End Py.

Import Py.

(* ===================================================================== *)
(** ** storage.py *)
(* ===================================================================== *)

Module Storage.

(** [status: Literal["processing", "indexed", "failed"]] *)
Inductive status := processing | indexed | failed.

#[global] Instance status_eq_dec : EqDecision status.
Proof. solve_decision. Defined.

(** A record of [papers.json]. The keys [chunks] and [pdfKey] are not
    present in every record. *)
Record paper := {
  paperId : str;
  title : str;
  pstatus : status;
  chunks : option Z;
  pdfKey : option str
}.

(** [next((i for i, p in enumerate(papers) if p["paperId"] == pid), None)] *)
Fixpoint find_index (pid : str) (papers : list paper) : option nat :=
  match papers with
  | [] => None
  | p :: rest =>
      if bool_decide (paperId p = pid) then Some O
      else S <$> find_index pid rest
  end.

(** The file [papers.json]: absent, or the list it holds. *)
Abbreviation papers_json := (option (list paper)).

Definition load_papers (file : papers_json) : list paper :=
  match file with
  | None => []
  | Some papers => papers
  end.

Definition save_papers (papers : list paper) : papers_json := Some papers.

(** [upsert_paper]: the file before and after. *)
Definition upsert_paper (p : paper) (file : papers_json) : papers_json :=
  let papers := load_papers file in
  let idx := find_index (paperId p) papers in
  let papers :=
    match idx with
    | None => p :: papers
    | Some idx => <[idx := p]> papers
    end in
  save_papers papers.

(** The record that a reader of the store finds for an id: the first one
    with that id, [next((p for p in papers if p.get("paperId") == pid), None)]
    in [main.py]. *)
Definition get_paper (pid : str) (papers : list paper) : option paper :=
  List.find (fun p => bool_decide (paperId p = pid)) papers.

End Storage.


(* ===================================================================== *)
(** ** rag.py *)
(* ===================================================================== *)

Module Rag.

(** A langchain [Document]: text and a metadata dictionary. *)
Record Document := {
  page_content : str;
  metadata : gmap str value
}.

(** The distances an index returns with its hits: a total preorder (floats
    without NaN); a smaller distance is a closer hit. *)
Class ScoreOrder (S : Type) := {
  score_le : S -> S -> bool;
  score_le_total : forall a b, score_le a b = true \/ score_le b a = true;
  score_le_trans : forall a b c,
    score_le a b = true -> score_le b c = true -> score_le a c = true
}.

(** The libraries and services the backend calls, and where it is
    installed. *)
Class Capabilities := {
  score : Type;
  score_order :: ScoreOrder score;
  (** a loaded FAISS vector store *)
  FAISS : Type;
  (** [Path(__file__).parent], the directory of the modules *)
  module_dir : str;
  (** [str(Path(a) / b)], pathlib's join *)
  path_join : str -> str -> str;
  (** [PyPDFLoader(path).load()]: one document per page *)
  loader_load : str -> result (list Document);
  (** [RecursiveCharacterTextSplitter(chunk_size, chunk_overlap).split_text] *)
  split_text : Z -> Z -> str -> list str;
  (** [FAISS.from_documents(chunks, EMBEDDINGS)] *)
  from_documents : list Document -> result FAISS;
  (** [out_dir.mkdir(...); vs.save_local(str(out_dir))] for the directory of
      an id: whether it raises, and what [FAISS.load_local] finds for each
      id afterwards *)
  save_local :
    FAISS -> str -> gmap str FAISS -> result unit * gmap str FAISS;
  (** a save that returns has written the store: it loads under the id *)
  save_local_saved : forall vs paper_id disk disk',
    save_local vs paper_id disk = (Ok tt, disk') ->
    disk' !! paper_id = Some vs;
  (** a save that raises in a directory from which nothing loaded leaves
      nothing that loads: [load_local] needs the index file and the pickle,
      both complete *)
  save_local_failed : forall vs paper_id disk e disk',
    disk !! paper_id = None ->
    save_local vs paper_id disk = (Raise e, disk') ->
    disk' !! paper_id = None;
  (** [vs.similarity_search_with_score(query, k)] *)
  similarity_search_with_score :
    FAISS -> str -> Z -> result (list (Document * score));
  (** [client.converse(...)] down to [resp["output"]["message"]["content"]]:
      the content parts, each with its ["text"] entry if it has one *)
  converse : str -> str -> result (list (option str))
}.

Section WithCapabilities.
Context `{Cap : Capabilities}.

(** [INDEX_DIR]: for each id, the vector store that [FAISS.load_local]
    returns for the directory [INDEX_DIR / id], if it loads. *)
Abbreviation index_dir := (gmap str FAISS).

(** [splitter.split_documents(docs)]: every document is split on its own and
    each piece carries a copy of the metadata of the document it is cut
    from. *)
Definition split_documents (docs : list Document) : list Document :=
  d ← docs;
  (fun t => {| page_content := t; metadata := metadata d |})
    <$> split_text 1000 150 (page_content d).

(** The body of [for i, d in enumerate(chunks)]. *)
Definition stamp (paper_id title : str) (i : nat) (d : Document) : Document :=
  let md := <[u "paperId" := VStr paper_id]> (metadata d) in
  let md := <[u "paperTitle" := VStr title]> md in
  let md := <[u "chunkId" := VStr (u "c" ++ format_05d i)]> md in
  let md :=
    match md !! u "page" with
    | Some (VInt page) =>
        <[u "pageEnd" := VInt (page + 1)]>
          (<[u "pageStart" := VInt (page + 1)]> md)
    | _ => md
    end in
  {| page_content := page_content d; metadata := md |}.

(** The chunks [ingest_pdf] hands to the index builder. *)
Definition stamped_chunks (docs : list Document) (paper_id title : str)
  : list Document :=
  imap (stamp paper_id title) (split_documents docs).

(** [ingest_pdf]: the outcome and the index directory afterwards. Nothing
    is written before [save_local] is called. *)
Definition ingest_pdf (disk : index_dir) (pdf_path paper_id title : str)
  : result Z * index_dir :=
  match loader_load pdf_path with
  | Raise e => (Raise e, disk)
  | Ok docs =>
      let chunks := stamped_chunks docs paper_id title in
      match from_documents chunks with
      | Raise e => (Raise e, disk)
      | Ok vs =>
          match save_local vs paper_id disk with
          | (Raise e, disk') => (Raise e, disk')
          | (Ok _, disk') => (Ok (Z.of_nat (length chunks)), disk')
          end
      end
  end.

(** [FAISS.load_local(str(INDEX_DIR / paper_id), ...)]: what loads from
    the directory that the path join gives for this id. Ids whose joins name
    the same directory are separate keys of [disk]; what each of them finds
    after a save is up to [save_local]. *)
Definition load_vectorstore (disk : index_dir) (paper_id : str)
  : result FAISS :=
  match disk !! paper_id with
  | Some vs => Ok vs
  | None => Raise (Exception (u "FAISS.load_local"))
  end.

(** [for pid in paper_ids: ...], with [scored] as the accumulator. *)
Fixpoint retrieve_loop (disk : index_dir) (query : str) (per_paper_k : Z)
    (paper_ids : list str) (scored : list (Document * score))
  : result (list (Document * score)) :=
  match paper_ids with
  | [] => Ok scored
  | pid :: rest =>
      vs ← load_vectorstore disk pid;
      docs_scores ← similarity_search_with_score vs query per_paper_k;
      retrieve_loop disk query per_paper_k rest (scored ++ docs_scores)
  end.

(** [list.sort(key=...)] is a stable sort; stable insertion gives the same
    list. [x] goes before the first element whose key is not smaller. *)
Fixpoint insert_by_score (x : Document * score) (l : list (Document * score))
  : list (Document * score) :=
  match l with
  | [] => [x]
  | y :: l' =>
      if score_le (snd x) (snd y) then x :: l
      else y :: insert_by_score x l'
  end.

Definition sort_by_score (l : list (Document * score))
  : list (Document * score) :=
  foldr insert_by_score [] l.

(** [retrieve(query, paper_ids, k)] *)
Definition retrieve (disk : index_dir) (query : str) (paper_ids : list str)
    (k : Z) : result (list Document) :=
  scored ← retrieve_loop disk query (Z.max 2 k) paper_ids [];
  mret (fst <$> slice_to k (sort_by_score scored)).

(** [x] is at most as far from the query as [y]. *)
Definition by_score (x y : Document * score) : Prop :=
  score_le (snd x) (snd y) = true.

(** The hits whose distance equals [v]. *)
Definition same_score (v : score) (x : Document * score) : bool :=
  score_le (snd x) v && score_le v (snd x).

(** [hits] is what the loop collects for [pid]: its store loads and the
    search in it answers. *)
Definition hits_of (disk : index_dir) (query : str) (per_paper_k : Z)
    (pid : str) (hits : list (Document * score)) : Prop :=
  exists vs, disk !! pid = Some vs /\
    similarity_search_with_score vs query per_paper_k = Ok hits.

End WithCapabilities.

(** Integer distances, for concrete indexes. *)
#[global] Instance Z_score_order : ScoreOrder Z.
Proof.
  refine {| score_le := Z.leb |}.
  - intros a b. rewrite !Z.leb_le. lia.
  - intros a b c. rewrite !Z.leb_le. lia.
Defined.

(** A citation dictionary. *)
Record citation := {
  paperId : value;
  paperTitle : value;
  section : value;
  pageStart : value;
  pageEnd : value;
  chunkId : value;
  snippet : str;
  text : str;
  pdfUrl : value
}.

(** [md.get(key, default)] *)
Definition get (md : gmap str value) (key : str) (dflt : value) : value :=
  default dflt (md !! key).

Definition make_snippet (content : str) : str :=
  if (160 <? Z.of_nat (length content)) then take 160 content ++ [8230%N]
  else content.

(** The dictionary appended for one document. [d.metadata or {}] is the
    metadata itself: the only falsy dictionary is the empty one. *)
Definition format_citation (d : Document) : citation :=
  let md := metadata d in
  {| paperId := get md (u "paperId") (VStr (u "unknown"));
     paperTitle := get md (u "paperTitle") (VStr (u "unknown"));
     section := get md (u "section") VNone;
     pageStart := get md (u "pageStart") VNone;
     pageEnd := get md (u "pageEnd") VNone;
     chunkId := get md (u "chunkId") (VStr (u "unknown"));
     snippet := make_snippet (page_content d);
     text := page_content d;
     pdfUrl := VNone |}.

Fixpoint format_citations (docs : list Document) : list citation :=
  match docs with
  | [] => []
  | d :: rest => format_citation d :: format_citations rest
  end.

Definition not_found : str := u "Not found in the provided papers.".

(** The bullet appended for the [i]-th document, [i] counted from 1. *)
Definition bullet (i : nat) (d : Document) : str :=
  let page := get (metadata d) (u "pageStart") (VStr (u "?")) in
  u "- Evidence [" ++ str_of_int (Z.of_nat i) ++ u "] (p. "
    ++ format_value page ++ u "): " ++ take 220 (strip (page_content d)).

Definition extractive_header : str :=
  u "Evidence-based response (MVP, extractive):" ++ nl ++ nl.

Definition extractive_footer : str :=
  nl ++ nl ++
  u "If you want, I can switch this to a real LLM answer next (still grounded with citations).".

Definition answer_extractively (question : str) (docs : list Document) : str :=
  match docs with
  | [] => not_found
  | _ =>
      extractive_header
        ++ join nl (imap (fun i d => bullet (S i) d) docs)
        ++ extractive_footer
  end.

End Rag.

(* ===================================================================== *)
(** ** bedrock_llm.py *)
(* ===================================================================== *)

Module BedrockLlm.
Import Rag.

(** The list [meta] once the three [if] statements have run. The title is
    appended as it is; the other entries are formatted strings. *)
Definition provenance_items (c : citation) : list value :=
  let meta := [] in
  let meta :=
    if truthy (paperTitle c) then meta ++ [paperTitle c] else meta in
  let meta :=
    if truthy (section c)
    then meta ++ [VStr ([167%N] ++ u " " ++ format_value (section c))]
    else meta in
  let meta :=
    if bool_decide (pageStart c ≠ VNone) then
      if truthy (pageEnd c) && bool_decide (pageEnd c ≠ pageStart c)
      then meta ++ [VStr (u "p. " ++ format_value (pageStart c) ++ u "-"
                            ++ format_value (pageEnd c))]
      else meta ++ [VStr (u "p. " ++ format_value (pageStart c))]
    else meta in
  meta.

(** [sep.join(items)]: a [TypeError] unless every item is a string. *)
Fixpoint join_values (sep : str) (items : list value) : result str :=
  match items with
  | [] => Ok []
  | VStr s :: rest =>
      match rest with
      | [] => Ok s
      | _ => tl ← join_values sep rest; mret (s ++ sep ++ tl)
      end
  | _ :: _ => Raise (Exception (u "TypeError"))
  end.

Definition provenance (c : citation) : result str :=
  match provenance_items c with
  | [] => Ok (u "source")
  | meta => join_values (u " " ++ [183%N] ++ u " ") meta
  end.

(** The entries that the three [if] statements contribute, as text: the
    title, the section marker, the page or page range. *)
Definition title_part (c : citation) : list str :=
  if truthy (paperTitle c) then [format_value (paperTitle c)] else [].

Definition section_part (c : citation) : list str :=
  if truthy (section c)
  then [[167%N] ++ u " " ++ format_value (section c)]
  else [].

Definition page_part (c : citation) : list str :=
  match pageStart c with
  | VNone => []
  | start =>
      if truthy (pageEnd c) && bool_decide (pageEnd c ≠ start)
      then [u "p. " ++ format_value start ++ u "-" ++ format_value (pageEnd c)]
      else [u "p. " ++ format_value start]
  end.

(** The title can be joined into the provenance string: it is a string, or
    it is falsy and left out. *)
Definition title_joinable (c : citation) : Prop :=
  truthy (paperTitle c) = true -> exists t, paperTitle c = VStr t.

(** The text of a citation as placed in the prompt: stripped, then cut to
    its first 1200 characters. The text of a citation is a string, so the
    guard against a missing text leaves it as it is. *)
Definition evidence_chunk (c : citation) : str :=
  take 1200 (strip (text c)).

(** One pass of the loop: the block of the [i]-th citation, [i] from 1. *)
Definition evidence_block (i : nat) (c : citation) : result str :=
  meta_str ← provenance c;
  mret (u "[" ++ str_of_int (Z.of_nat i) ++ u "] " ++ meta_str ++ nl
          ++ evidence_chunk c).

Fixpoint evidence_blocks_from (i : nat) (citations : list citation)
  : result (list str) :=
  match citations with
  | [] => Ok []
  | c :: rest =>
      b ← evidence_block i c;
      bs ← evidence_blocks_from (S i) rest;
      mret (b :: bs)
  end.

(** [for i, c in enumerate(citations, start=1)] *)
Definition evidence_blocks (citations : list citation) : result (list str) :=
  evidence_blocks_from 1 citations.

Definition evidence_text (blocks : list str) : str :=
  match blocks with
  | [] => u "(no evidence retrieved)"
  | _ => join (nl ++ nl) blocks
  end.

Definition system_text : str :=
  u "You are an academic research assistant." ++ nl
  ++ nl
  ++ u "Your task:" ++ nl
  ++ u "1) FIRST decide whether the user's question is a factual, technical question that can be answered using ONLY the provided Evidence." ++ nl
  ++ u "2) If the question is not about the content of the papers, is a greeting, or cannot be answered using the Evidence, respond EXACTLY with:" ++ nl
  ++ dq ++ u "Please ask a question related to the content of the uploaded papers." ++ dq ++ nl
  ++ nl
  ++ u "IMPORTANT:" ++ nl
  ++ u "- You must EITHER provide an answer OR provide the refusal message, NEVER both." ++ nl
  ++ nl
  ++ u "If the question IS answerable using the Evidence:" ++ nl
  ++ u "- Answer using ONLY the Evidence." ++ nl
  ++ u "- Cite every non-trivial claim using bracket citations like [1] or [1][2]." ++ nl
  ++ u "- Do NOT add external knowledge." ++ nl
  ++ u "- Keep the answer concise, technical, and neutral." ++ nl
  ++ u "- Do not use Markdown formatting in the response." ++ nl
  ++ nl
  ++ u "Mathematical formatting rules (MANDATORY):" ++ nl
  ++ u "- Any mathematical expression MUST be written in LaTeX." ++ nl
  ++ u "- Do NOT use Unicode math symbols (e.g., " ++ [947%N] ++ u ", " ++ [1013%N] ++ u ", " ++ [8722%N] ++ u ", " ++ [215%N] ++ u ") outside LaTeX." ++ nl
  ++ u "- Use inline math with \( ... \)." ++ nl
  ++ u "- Use display equations with \[ ... \] on their own lines." ++ nl
  ++ u "- Do NOT format equations using plain square brackets [ ... ]." ++ nl
  ++ u "- Plain-text math is not allowed." ++ nl
  ++ u "- Do NOT wrap natural language sentences in LaTeX." ++ nl
  ++ u "- Do NOT use \text{...} for explanatory text." ++ nl
  ++ u "- LaTeX is ONLY for mathematical symbols, equations, or formulas.".

Definition user_text (question evidence : str) : str :=
  u "Question:" ++ nl
  ++ question ++ nl
  ++ nl
  ++ u "Evidence:" ++ nl
  ++ evidence ++ nl
  ++ nl
  ++ u "Instructions:" ++ nl
  ++ u "- FIRST determine whether the question can be answered using the Evidence above." ++ nl
  ++ u "- If the question is not about the content of the papers, respond EXACTLY with:" ++ nl
  ++ u "  " ++ dq ++ u "Please ask a question related to the content of the uploaded papers." ++ dq ++ nl
  ++ u "- Otherwise, answer using ONLY the Evidence." ++ nl
  ++ u "- Do NOT add external knowledge." ++ nl
  ++ u "- Cite every non-trivial claim using bracket citations like [1] or [1][2]." ++ nl
  ++ u "- Do NOT use Markdown formatting in the response." ++ nl
  ++ nl
  ++ u "Mathematical formatting rules:" ++ nl
  ++ u "- Rewrite ALL mathematical expressions in LaTeX." ++ nl
  ++ u "- Use inline math with \( ... \)." ++ nl
  ++ u "- Use block equations with \[ ... \] on their own lines." ++ nl
  ++ u "- Do NOT use Unicode math symbols outside LaTeX." ++ nl
  ++ u "- Do NOT use plain square brackets [ ... ] for equations." ++ nl
  ++ nl
  ++ u "- Do NOT wrap explanatory sentences in LaTeX or \text{...}." ++ nl
  ++ u "- Use LaTeX ONLY for equations or symbolic expressions." ++ nl
  ++ u "Style rules:" ++ nl
  ++ u "- Keep the answer concise, technical, and neutral." ++ nl
  ++ u "- Do not include greetings or conversational filler.".

(** [for part in content: if "text" in part: text_parts.append(...)] *)
Definition text_parts (content : list (option str)) : list str :=
  omap id content.

Definition generate_answer_nova_micro `{Cap : Capabilities}
    (question : str) (citations : list citation) : result str :=
  blocks ← evidence_blocks citations;
  content ← converse system_text (user_text question (evidence_text blocks));
  let answer := strip (join nl (text_parts content)) in
  mret (match answer with
        | [] => not_found
        | _ => answer
        end).

End BedrockLlm.

(* ===================================================================== *)
(** ** main.py *)
(* ===================================================================== *)

Module Main.

Record IngestReq := { s3Key : str }.
Record IngestResp := { ingested : str }.
Record ChatReq := { question : str; paperFilter : str }.
Record ChatResp := { answer : str; citations : list Rag.citation }.

Record UploadUrlReq := { filename : str }.

(** The response of [POST /upload-url]; [key] is its entry [s3Key]. *)
Record UploadUrlResp := { uploadUrl : str; key : str }.

(** The files of [UPLOAD_DIR], by path. *)
Abbreviation upload_dir := (gmap str (list Byte.byte)).

(** The dictionaries [upload_pdf] returns. *)
Inductive UploadResult :=
  | UploadFailed (error : str)
  | UploadDone (path : str).

(** What the operating system does with [out_path.write_bytes(pdf_bytes)]:
    the file is written, or the call raises. A call that raises has left
    the file as it was ([remains = None]) or, having truncated it, holding the
    bytes written up to the failure ([remains = Some bytes]). *)
Inductive write_outcome :=
  | Written
  | WriteRaised (e : exn) (remains : option (list Byte.byte)).

(** What [GET /pdf/{paper_id}] answers: an error dictionary, or the file
    response with its path, media type and download name. *)
Inductive PdfResponse :=
  | PdfError (error : str)
  | PdfFile (path media_type filename : str).

Section WithCapabilities.
Context `{Cap : Rag.Capabilities}.

(** What the handlers read and write: [papers.json] and the index
    directory. *)
Record state := {
  papers : Storage.papers_json;
  indexes : gmap str Rag.FAISS
}.

(** [DATA_DIR = Path(__file__).parent / "data"] and
    [UPLOAD_DIR = DATA_DIR / "uploads"] *)
Definition DATA_DIR : str := Rag.path_join Rag.module_dir (u "data").

Definition UPLOAD_DIR : str := Rag.path_join DATA_DIR (u "uploads").

(** [UPLOAD_DIR / key] *)
Definition upload_path (key : str) : str := Rag.path_join UPLOAD_DIR key.

(** The title: the part of the key after its last underscore, without
    the extension [.pdf] and with spaces for hyphens. *)
Definition title_of_key (key : str) : str :=
  replace (u "-") (u " ")
    (replace (u ".pdf") [] (default [] (last (split 95%N key)))).

(** [f"p_{uuid.uuid4().hex[:10]}"], from the drawn hexadecimal digits. *)
Definition new_paper_id (uuid_hex : str) : str := u "p_" ++ take 10 uuid_hex.

Definition processing_record (paper_id title key : str) : Storage.paper :=
  {| Storage.paperId := paper_id; Storage.title := title;
     Storage.pstatus := Storage.processing;
     Storage.chunks := None; Storage.pdfKey := Some key |}.

Definition indexed_record (paper_id title key : str) (n_chunks : Z)
  : Storage.paper :=
  {| Storage.paperId := paper_id; Storage.title := title;
     Storage.pstatus := Storage.indexed;
     Storage.chunks := Some n_chunks; Storage.pdfKey := Some key |}.

Definition failed_record (paper_id title : str) : Storage.paper :=
  {| Storage.paperId := paper_id; Storage.title := title;
     Storage.pstatus := Storage.failed;
     Storage.chunks := None; Storage.pdfKey := None |}.

(** [POST /ingest]. The handler calls [upsert_paper] up to three times, once
    per status. [store_raises] tells, for the call that writes the record of
    a status, whether it goes through ([None]) or raises; a call that raises
    has recorded nothing. Returns the response, or the exception that leaves
    the handler, and the states reached after each call of [upsert_paper]
    that went through, in order. *)
Definition ingest (store_raises : Storage.status -> option exn)
    (st : state) (req : IngestReq) (uuid_hex : str)
  : result IngestResp * list state :=
  let pdf_path := upload_path (s3Key req) in
  let paper_id := new_paper_id uuid_hex in
  let title := title_of_key (s3Key req) in
  (* mark processing *)
  match store_raises Storage.processing with
  | Some e => (Raise e, [])
  | None =>
      let st1 :=
        {| papers := Storage.upsert_paper
                       (processing_record paper_id title (s3Key req))
                       (papers st);
           indexes := indexes st |} in
      let '(outcome, disk) :=
        Rag.ingest_pdf (indexes st1) pdf_path paper_id title in
      (* the body of [try]: the count, or the exception it raises *)
      let tried : Z + exn :=
        match outcome with
        | Raise e => inr e
        | Ok n_chunks =>
            match store_raises Storage.indexed with
            | Some e => inr e
            | None => inl n_chunks
            end
        end in
      match tried with
      | inl n_chunks =>
          (Ok {| ingested := paper_id |},
           [st1;
            {| papers := Storage.upsert_paper
                           (indexed_record paper_id title (s3Key req) n_chunks)
                           (papers st1);
               indexes := disk |}])
      | inr e =>
          (* [except Exception]: record the failure, raise again *)
          match store_raises Storage.failed with
          | Some e' => (Raise e', [st1])
          | None =>
              (Raise e,
               [st1;
                {| papers := Storage.upsert_paper
                               (failed_record paper_id title) (papers st1);
                   indexes := disk |}])
          end
      end
  end.

(** [c["pdfUrl"] = f"http://localhost:3001/pdf/{c['paperId']}"] *)
Definition with_pdf_url (c : Rag.citation) : Rag.citation :=
  {| Rag.paperId := Rag.paperId c; Rag.paperTitle := Rag.paperTitle c;
     Rag.section := Rag.section c; Rag.pageStart := Rag.pageStart c;
     Rag.pageEnd := Rag.pageEnd c; Rag.chunkId := Rag.chunkId c;
     Rag.snippet := Rag.snippet c; Rag.text := Rag.text c;
     Rag.pdfUrl :=
       VStr (u "http://localhost:3001/pdf/" ++ format_value (Rag.paperId c)) |}.

(** The ids [chat] searches. *)
Definition chat_paper_ids (st : state) (req : ChatReq) : list str :=
  let papers := Storage.load_papers (papers st) in
  let indexed :=
    filter (fun p => Storage.pstatus p = Storage.indexed) papers in
  if bool_decide (paperFilter req ≠ u "all") then [paperFilter req]
  else Storage.paperId <$> indexed.

(** [POST /chat] *)
Definition chat (st : state) (req : ChatReq) : result ChatResp :=
  docs ← Rag.retrieve (indexes st) (question req) (chat_paper_ids st req) 6;
  let citations := with_pdf_url <$> Rag.format_citations docs in
  let answer :=
    match BedrockLlm.generate_answer_nova_micro (question req) citations with
    | Ok answer => answer
    | Raise e => Rag.answer_extractively (question req) docs
    end in
  mret {| answer := answer; citations := citations |}.

(** [POST /upload-url], from the clock reading [int(time.time())] and the
    hexadecimal digits of the drawn UUID. *)
Definition upload_url (now : Z) (uuid_hex : str) (req : UploadUrlReq)
  : UploadUrlResp :=
  let key := str_of_int now ++ u "_" ++ uuid_hex ++ u "_" ++ filename req in
  {| uploadUrl := u "http://localhost:3001/upload?key=" ++ key; key := key |}.

Section Upload.
(** [UPLOAD_DIR.mkdir(...); out_path.write_bytes(pdf_bytes)] *)
Variable write_bytes : str -> list Byte.byte -> write_outcome.

(** [PUT /upload]: the outcome and the upload directory afterwards. *)
Definition upload_pdf (uploads : upload_dir) (pdf_bytes : list Byte.byte)
    (key : str) : result UploadResult * upload_dir :=
  match pdf_bytes with
  | [] => (Ok (UploadFailed (u "Empty body")), uploads)
  | _ =>
      let out_path := upload_path key in
      match write_bytes out_path pdf_bytes with
      | WriteRaised e None => (Raise e, uploads)
      | WriteRaised e (Some partial) =>
          (Raise e, <[out_path := partial]> uploads)
      | Written => (Ok (UploadDone out_path), <[out_path := pdf_bytes]> uploads)
      end
  end.

End Upload.

(** [GET /pdf/{paper_id}] *)
Definition get_pdf (papers : Storage.papers_json) (uploads : upload_dir)
    (paper_id : str) : PdfResponse :=
  match Storage.get_paper paper_id (Storage.load_papers papers) with
  | None => PdfError (u "PDF not found")
  | Some paper =>
      match Storage.pdfKey paper with
      | None | Some [] => PdfError (u "PDF not found")
      | Some pdf_key =>
          let pdf_path := upload_path pdf_key in
          if bool_decide (is_Some (uploads !! pdf_path))
          then PdfFile pdf_path (u "application/pdf")
                 (Storage.title paper ++ u ".pdf")
          else PdfError (u "PDF file missing on disk")
      end
  end.

End WithCapabilities.

End Main.

(* ===================================================================== *)
(** ** A small concrete installation *)
(* ===================================================================== *)

Module Fixture.
Import Rag.

(** A two-page PDF, as the loader returns it. *)
Definition page0 : Document :=
  {| page_content := u "  Transformers use attention. ";
     metadata := {[ u "page" := VInt 0; u "source" := VStr (u "a.pdf") ]} |}.

Definition page1 : Document :=
  {| page_content := u "Recurrent networks use state.";
     metadata := {[ u "page" := VInt 1; u "source" := VStr (u "a.pdf") ]} |}.

Definition sample_key : str := u "1700000000_abcdef_my-paper.pdf".

(** Where the sample upload lies. *)
Definition sample_path : str :=
  u "/srv/rag-backend/data/uploads/" ++ sample_key.

(** An installation in which: the backend lies in [/srv/rag-backend] of a
    POSIX system; the loader knows one upload; the splitter keeps a page in
    one piece; a store is the list of its chunks, each at the distance of
    its rank; every save goes through; and the Bedrock client is
    unreachable. *)
Definition offline : Capabilities :=
  {| score := Z;
     FAISS := list (Document * Z);
     module_dir := u "/srv/rag-backend";
     path_join a b := a ++ u "/" ++ b;
     loader_load path :=
       if bool_decide (path = sample_path)
       then Ok [page0; page1]
       else Raise (Exception (u "PyPDFLoader.load"));
     split_text _ _ s := [s];
     from_documents chunks :=
       Ok (imap (fun i d => (d, Z.of_nat i)) chunks);
     save_local vs paper_id disk := (Ok tt, <[paper_id := vs]> disk);
     save_local_saved vs paper_id disk disk' :=
       ltac:(intros [= <-]; apply lookup_insert_eq);
     save_local_failed vs paper_id disk e disk' :=
       ltac:(intros _ [=]);
     similarity_search_with_score vs _ k := Ok (take (Z.to_nat k) vs);
     converse _ _ := Raise (Exception (u "converse")) |}.

Definition sample_chunks : list Document :=
  stamped_chunks (Cap := offline) [page0; page1] (u "p_0123456789")
    (u "my paper").

Definition chunk0 : Document := default page0 (sample_chunks !! 0%nat).
Definition chunk1 : Document := default page1 (sample_chunks !! 1%nat).

Definition sample_store : @FAISS offline :=
  [(chunk0, 0); (chunk1, 1)].

Definition sample_disk : gmap str (@FAISS offline) :=
  {[ u "p_0123456789" := sample_store ]}.

(** The paper is recorded as failed while its index directory is there. *)
Definition stale_state : Main.state (Cap := offline) :=
  {| Main.papers :=
       Some [Main.failed_record (u "p_0123456789") (u "my paper")];
     Main.indexes := sample_disk |}.

Definition indexed_state : Main.state (Cap := offline) :=
  {| Main.papers :=
       Some
         [Main.indexed_record (u "p_0123456789") (u "my paper") sample_key 2];
     Main.indexes := sample_disk |}.

Definition sample_question : str := u "What do transformers use?".

Definition ask_one : Main.ChatReq :=
  {| Main.question := sample_question;
     Main.paperFilter := u "p_0123456789" |}.

Definition ask_all : Main.ChatReq :=
  {| Main.question := sample_question; Main.paperFilter := u "all" |}.

Definition ask_missing : Main.ChatReq :=
  {| Main.question := sample_question; Main.paperFilter := u "p_missing" |}.

Definition two_papers : Storage.papers_json :=
  Some
    [Main.indexed_record (u "p_aaaaaaaaaa") (u "first") (u "1_x_first.pdf") 7;
     Main.processing_record (u "p_bbbbbbbbbb") (u "second")
       (u "2_y_second.pdf")].

Definition sample_citation : citation :=
  {| paperId := VStr (u "p_0123456789");
     paperTitle := VStr (u "my paper");
     section := VNone;
     pageStart := VInt 1;
     pageEnd := VInt 1;
     chunkId := VStr (u "c00000");
     snippet := u "Transformers use attention.";
     text := u "  Transformers use attention. ";
     pdfUrl := VNone |}.

(** The same installation with a Bedrock client that answers. *)
Definition online : Capabilities :=
  {| score := Z;
     FAISS := list (Document * Z);
     module_dir := module_dir (Capabilities := offline);
     path_join := path_join (Capabilities := offline);
     loader_load := loader_load (Capabilities := offline);
     split_text := split_text (Capabilities := offline);
     from_documents := from_documents (Capabilities := offline);
     save_local := save_local (Capabilities := offline);
     save_local_saved := save_local_saved (Capabilities := offline);
     save_local_failed := save_local_failed (Capabilities := offline);
     similarity_search_with_score :=
       similarity_search_with_score (Capabilities := offline);
     converse _ _ := Ok [Some (u "  Attention [1]. "); None] |}.

Definition integer_title_citation : citation :=
  {| paperId := VStr (u "p_0123456789");
     paperTitle := VInt 7;
     section := VNone;
     pageStart := VInt 1;
     pageEnd := VInt 1;
     chunkId := VStr (u "c00000");
     snippet := u "Transformers use attention.";
     text := u "  Transformers use attention. ";
     pdfUrl := VNone |}.

Definition other_hex : str := u "fedcba9876543210".

(** A request for the known upload and one for an upload the loader cannot
    read. *)
Definition fresh_request : Main.IngestReq := {| Main.s3Key := sample_key |}.

Definition lost_request : Main.IngestReq :=
  {| Main.s3Key := u "1700000001_abcdef_lost.pdf" |}.

(** A store that takes every record, and one that takes every record but
    the one of an indexed paper. *)
Definition store_accepts (s : Storage.status) : option exn := None.


Definition good_run : result Main.IngestResp * list Main.state :=
  Main.ingest store_accepts indexed_state fresh_request other_hex.

Definition bad_run : result Main.IngestResp * list Main.state :=
  Main.ingest store_accepts indexed_state lost_request other_hex.


Definition run_state (run : result Main.IngestResp * list Main.state)
    (i : nat) : Main.state :=
  default indexed_state (snd run !! i).

Definition good_response : Main.IngestResp :=
  match fst good_run with
  | Ok resp => resp
  | Raise _ => {| Main.ingested := [] |}
  end.

Definition sample_response : Main.ChatResp :=
  match Main.chat indexed_state ask_all with
  | Ok resp => resp
  | Raise _ => {| Main.answer := []; Main.citations := [] |}
  end.

Definition ingested_disk : gmap str (@FAISS offline) :=
  snd (ingest_pdf (Cap := offline) ∅ sample_path
         (u "p_0123456789") (u "my paper")).

(** The bytes of an upload, an operating system that accepts every write,
    and an upload directory that holds the sample upload. *)
Definition sample_bytes : list Byte.byte :=
  [Byte.x25; Byte.x50; Byte.x44; Byte.x46].

Definition always_writes (path : str) (content : list Byte.byte)
  : Main.write_outcome := Main.Written.

Definition sample_uploads : gmap str (list Byte.byte) :=
  {[ sample_path := sample_bytes ]}.

Definition sample_upload_request : Main.UploadUrlReq :=
  {| Main.filename := u "my-paper.pdf" |}.

End Fixture.
(* ===================================================================== *)
(** ** Properties of storage.py *)
(* ===================================================================== *)

Section StorageFacts.
Import Storage.

Lemma find_index_None pid papers :
  find_index pid papers = None <-> pid ∉ paperId <$> papers.
Proof.
  induction papers as [|p rest IH]; simpl.
  - split; [intros _; apply not_elem_of_nil | done].
  - case_bool_decide as Hp.
    + split; [done | intros Hn; exfalso; apply Hn; subst; left].
    + rewrite not_elem_of_cons, <- IH.
      destruct (find_index pid rest); simpl; intuition congruence.
Qed.

Lemma find_index_Some pid papers idx :
  find_index pid papers = Some idx ->
  (exists q, papers !! idx = Some q /\ paperId q = pid) /\
  (forall j q, (j < idx)%nat -> papers !! j = Some q -> paperId q ≠ pid).
Proof.
  revert idx. induction papers as [|p rest IH]; intros idx; simpl; [done|].
  case_bool_decide as Hp.
  - intros [= <-]. split; [eauto | intros; lia].
  - destruct (find_index pid rest) as [i|] eqn:E; simpl; [|done].
    intros [= <-]. destruct (IH i eq_refl) as [Hq Hlt]. split; [done|].
    intros [|j] q Hj; simpl; [by intros [= <-] | apply Hlt; lia].
Qed.

Lemma find_index_unique pid papers i q :
  NoDup (paperId <$> papers) ->
  papers !! i = Some q -> paperId q = pid ->
  find_index pid papers = Some i.
Proof.
  intros Hnd Hi Hq.
  destruct (find_index pid papers) as [j|] eqn:E.
  - destruct (find_index_Some _ _ _ E) as [(q' & Hj & Hq') _].
    f_equal. eapply NoDup_lookup; [exact Hnd | |].
    + rewrite list_lookup_fmap, Hj. simpl. by rewrite Hq'.
    + rewrite list_lookup_fmap, Hi. simpl. by rewrite Hq.
  - apply find_index_None in E. exfalso. apply E.
    apply list_elem_of_fmap. exists q. split; [done|].
    by eapply list_elem_of_lookup_2.
Qed.

Lemma fmap_insert_same_key (papers : list paper) i q p :
  papers !! i = Some q -> paperId q = paperId p ->
  paperId <$> <[i := p]> papers = paperId <$> papers.
Proof.
  intros Hi Hq. rewrite list_fmap_insert.
  apply list_insert_id. rewrite list_lookup_fmap, Hi. simpl. by rewrite Hq.
Qed.

(** C10: on a store whose paperIds are distinct, [upsert_paper] keeps them
    distinct; a record whose paperId is already stored overwrites that
    record at its position, every other position being untouched, and a
    record with a new paperId becomes the head of the list. *)
Theorem upsert_paper_one_record_per_id (p : paper) (file : papers_json) :
  NoDup (paperId <$> load_papers file) ->
  NoDup (paperId <$> load_papers (upsert_paper p file)) /\
  (forall i q, load_papers file !! i = Some q -> paperId q = paperId p ->
     load_papers (upsert_paper p file) = <[i := p]> (load_papers file) /\
     length (load_papers (upsert_paper p file)) = length (load_papers file) /\
     load_papers (upsert_paper p file) !! i = Some p /\
     (forall j, j ≠ i ->
        load_papers (upsert_paper p file) !! j = load_papers file !! j)) /\
  (paperId p ∉ paperId <$> load_papers file ->
   load_papers (upsert_paper p file) = p :: load_papers file).
Proof.
  intros Hnd. unfold upsert_paper. cbn [save_papers load_papers].
  fold (load_papers file). set (papers := load_papers file) in *.
  split; [|split].
  - destruct (find_index (paperId p) papers) as [idx|] eqn:E.
    + destruct (find_index_Some _ _ _ E) as [(q & Hq & Hid) _].
      by erewrite fmap_insert_same_key.
    + apply find_index_None in E. rewrite fmap_cons.
      by apply NoDup_cons.
  - intros i q Hi Hq.
    rewrite (find_index_unique _ _ _ _ Hnd Hi Hq).
    split; [done|]. split; [apply length_insert|]. split.
    + apply list_lookup_insert_eq. by eapply lookup_lt_Some.
    + intros j Hj. by apply list_lookup_insert_ne.
  - intros Hfresh.
    apply find_index_None in Hfresh. by rewrite Hfresh.
Qed.

End StorageFacts.

(* ===================================================================== *)
(** ** Properties of retrieve *)
(* ===================================================================== *)

Section RetrieveFacts.
Import Rag.
Context `{Cap : Capabilities}.

Implicit Types (x y : Document * score) (l scored : list (Document * score)).

Lemma score_le_false_flip (a b : score) :
  score_le a b = false -> score_le b a = true.
Proof. intros Hab. destruct (score_le_total a b); congruence. Qed.

Lemma insert_by_score_perm x l : insert_by_score x l ≡ₚ x :: l.
Proof.
  induction l as [|y l IH]; simpl; [done|].
  destruct (score_le (snd x) (snd y)); [done|].
  rewrite IH. apply Permutation_swap.
Qed.

Lemma sort_by_score_perm l : sort_by_score l ≡ₚ l.
Proof.
  induction l as [|x l IH]; simpl; [done|].
  fold (sort_by_score l). by rewrite insert_by_score_perm, IH.
Qed.

Lemma insert_by_score_hd x y l :
  by_score y x -> HdRel by_score y l -> HdRel by_score y (insert_by_score x l).
Proof.
  intros Hyx Hhd. destruct l as [|z l]; simpl; [by constructor|].
  destruct (score_le (snd x) (snd z)); constructor; [done|].
  by inversion Hhd.
Qed.

Lemma insert_by_score_sorted x l :
  Sorted by_score l -> Sorted by_score (insert_by_score x l).
Proof.
  induction 1 as [|y l Hs IH Hhd]; simpl.
  - by repeat constructor.
  - destruct (score_le (snd x) (snd y)) eqn:Hxy.
    + constructor; [by constructor|]. by constructor.
    + constructor; [done|].
      apply insert_by_score_hd; [|done].
      by apply score_le_false_flip.
Qed.

Lemma sort_by_score_sorted l : Sorted by_score (sort_by_score l).
Proof.
  induction l as [|x l IH]; simpl; [constructor|].
  by apply insert_by_score_sorted.
Qed.

(** Insertion steps over strictly closer hits only, so hits at one distance
    keep their order. *)
Lemma insert_by_score_filter (v : score) x l :
  filter (λ y, same_score v y = true) (insert_by_score x l)
  = filter (λ y, same_score v y = true) (x :: l).
Proof.
  induction l as [|y l IH]; simpl; [done|].
  destruct (score_le (snd x) (snd y)) eqn:Hxy; [done|].
  rewrite filter_cons, IH, !filter_cons.
  destruct (decide (same_score v y = true)) as [Hy|Hy]; [|done].
  destruct (decide (same_score v x = true)) as [Hx|Hx]; [|done].
  exfalso. unfold same_score in Hx, Hy.
  apply andb_true_iff in Hx as [Hx1 Hx2].
  apply andb_true_iff in Hy as [Hy1 Hy2].
  rewrite (score_le_trans _ _ _ Hx1 Hy2) in Hxy. done.
Qed.

Lemma sort_by_score_stable (v : score) l :
  filter (λ y, same_score v y = true) (sort_by_score l)
  = filter (λ y, same_score v y = true) l.
Proof.
  induction l as [|x l IH]; simpl; [done|].
  fold (sort_by_score l).
  by rewrite insert_by_score_filter, !filter_cons, IH.
Qed.

Lemma score_le_refl (a : score) : score_le a a = true.
Proof. by destruct (score_le_total a a). Qed.

Lemma same_score_refl x : same_score (snd x) x = true.
Proof. unfold same_score. by rewrite score_le_refl. Qed.

Lemma same_score_sym x y : same_score (snd x) y = same_score (snd y) x.
Proof. unfold same_score. apply andb_comm. Qed.

#[local] Instance by_score_trans : Transitive by_score.
Proof. intros x y z. unfold by_score. apply score_le_trans. Qed.

Lemma Sorted_by_score_head x y l :
  Sorted by_score (x :: l) -> y ∈ l -> by_score x y.
Proof.
  intros Hs Hy. apply Sorted_extends in Hs; [|apply by_score_trans].
  rewrite List.Forall_forall in Hs. by apply Hs, list_elem_of_In.
Qed.

Lemma filter_same_score_head x l1 l2 :
  filter (λ y, same_score (snd x) y = true) l1 = x :: l2 -> x ∈ l1.
Proof.
  intros Hf. apply (list_elem_of_filter (λ y, same_score (snd x) y = true)).
  rewrite Hf. left.
Qed.

(** The outcome of a stable sort is determined: two sorted lists in which
    the hits of every distance come in the same order are the same list. So
    any stable sorting algorithm returns what [sort_by_score] returns. *)
Lemma stable_sorted_unique l1 l2 :
  Sorted by_score l1 -> Sorted by_score l2 ->
  (forall v, filter (λ y, same_score v y = true) l1
             = filter (λ y, same_score v y = true) l2) ->
  l1 = l2.
Proof.
  intros Hs1. revert l2.
  induction l1 as [|x l1 IH]; intros [|y l2] Hs2 Hf; [done| | |].
  - specialize (Hf (snd y)). rewrite filter_cons_True in Hf; [done|].
    apply same_score_refl.
  - specialize (Hf (snd x)). rewrite filter_cons_True in Hf; [done|].
    apply same_score_refl.
  - assert (Hxy : x = y).
    { pose proof (Hf (snd x)) as Hx. pose proof (Hf (snd y)) as Hy.
      rewrite (filter_cons_True _ x) in Hx by apply same_score_refl.
      rewrite (filter_cons_True _ y) in Hy by apply same_score_refl.
      destruct (same_score (snd x) y) eqn:E.
      - rewrite (filter_cons_True _ y) in Hx by done. congruence.
      - exfalso.
        rewrite (filter_cons_False _ y) in Hx by (by rewrite E).
        rewrite (filter_cons_False _ x) in Hy
          by (by rewrite same_score_sym, E).
        symmetry in Hx. apply filter_same_score_head in Hx, Hy.
        pose proof (Sorted_by_score_head _ _ _ Hs2 Hx) as Hyx.
        pose proof (Sorted_by_score_head _ _ _ Hs1 Hy) as Hxy.
        unfold same_score, by_score in *. by rewrite Hyx, Hxy in E. }
    subst y. f_equal. apply IH.
    + by inversion Hs1.
    + by inversion Hs2.
    + intros v. specialize (Hf v). rewrite !filter_cons in Hf.
      destruct (decide (same_score v x = true)); congruence.
Qed.

Lemma Sorted_by_score_take n l :
  Sorted by_score l -> Sorted by_score (take n l).
Proof.
  intros Hs. revert n. induction Hs as [|y l Hs IH Hhd]; intros [|n]; simpl;
    try constructor; [apply IH|].
  destruct Hhd; destruct n; simpl; by constructor.
Qed.

Lemma slice_to_nonneg {A} (k : Z) (l : list A) :
  0 ≤ k -> slice_to k l = take (Z.to_nat k) l.
Proof. intros Hk. unfold slice_to. by rewrite (proj2 (Z.leb_le 0 k) Hk). Qed.

Lemma slice_to_length {A} (k : Z) (l : list A) :
  0 ≤ k -> Z.of_nat (length (slice_to k l)) = Z.min k (Z.of_nat (length l)).
Proof. intros Hk. rewrite slice_to_nonneg, length_take by done. lia. Qed.

(** The loop either stops at the first listed paper whose store does not
    load or whose search fails, or appends the hits paper by paper. *)
Lemma retrieve_loop_hits disk query per_k paper_ids hitss acc :
  Forall2 (hits_of disk query per_k) paper_ids hitss ->
  retrieve_loop disk query per_k paper_ids acc = Ok (acc ++ concat hitss).
Proof.
  intros HF. revert acc.
  induction HF as [|pid hits pids hitss (vs & Hvs & Hs) _ IH]; intros acc; simpl.
  - by rewrite app_nil_r.
  - unfold load_vectorstore. rewrite Hvs. simpl. rewrite Hs. simpl.
    rewrite IH. by rewrite <- (assoc_L (++)).
Qed.

(** The loop stops at the first listed paper whose store does not load or
    whose search raises, with the exception raised there; a paper without a
    loadable store is such a paper, or comes after it. *)
Lemma retrieve_loop_stops disk query per_k paper_ids pid acc :
  pid ∈ paper_ids -> disk !! pid = None ->
  exists (before : list str) (p : str) (after : list str)
         (hitss : list (list (Document * score))) (e : exn),
    paper_ids = before ++ p :: after /\
    Forall2 (hits_of disk query per_k) before hitss /\
    pid ∈ p :: after /\
    (disk !! p = None /\ e = Exception (u "FAISS.load_local") \/
     exists vs, disk !! p = Some vs /\
       similarity_search_with_score vs query per_k = Raise e) /\
    retrieve_loop disk query per_k paper_ids acc = Raise e.
Proof.
  intros Hin Hnone. revert acc.
  induction paper_ids as [|q rest IH]; intros acc; [by apply elem_of_nil in Hin|].
  simpl. unfold load_vectorstore.
  destruct (disk !! q) as [vs|] eqn:Hq; simpl.
  - destruct (similarity_search_with_score vs query per_k) as [hits|e] eqn:Hs;
      simpl.
    + apply elem_of_cons in Hin as [->|Hin]; [congruence|].
      destruct (IH Hin (acc ++ hits))
        as (before & p & after & hitss & e & -> & HF & Hpid & Hstop & Hloop).
      exists (q :: before), p, after, (hits :: hitss), e.
      split; [done|]. split; [|done].
      constructor; [by exists vs | done].
    + exists [], q, rest, [], e. split; [done|]. split; [constructor|].
      split; [done|]. split; [|done]. right. by exists vs.
  - exists [], q, rest, [], (Exception (u "FAISS.load_local")).
    split; [done|]. split; [constructor|]. split; [done|].
    split; [by left | done].
Qed.

(** When the papers listed before one without a loadable store all load and
    answer their search, the loop raises the load error. *)
Lemma retrieve_loop_load_error disk query per_k before pid after hitss acc :
  Forall2 (hits_of disk query per_k) before hitss -> disk !! pid = None ->
  retrieve_loop disk query per_k (before ++ pid :: after) acc
  = Raise (Exception (u "FAISS.load_local")).
Proof.
  intros HF Hnone. revert acc.
  induction HF as [|q hits qs hitss (vs & Hvs & Hs) _ IH]; intros acc; simpl.
  - unfold load_vectorstore. by rewrite Hnone.
  - unfold load_vectorstore. rewrite Hvs. simpl. rewrite Hs. simpl. apply IH.
Qed.

(** C2, as amended: when the store of one listed paper cannot be loaded,
    [retrieve] returns no chunks at all, whatever the other listed papers
    hold: it raises the exception of the first listed paper [p] at which the
    loop fails. The papers listed before [p] load and answer their search,
    and the unloadable paper is [p] or is listed after it. The exception is
    the load error when the store of [p] does not load, and otherwise the
    exception that the search in the store of [p] raises. In particular,
    when the papers listed before the unloadable one all load and answer
    their search, [retrieve] raises the load error. *)
Theorem retrieve_unloadable_index_aborts
    (disk : gmap str FAISS) (query : str) (paper_ids : list str) (k : Z)
    (pid : str) :
  pid ∈ paper_ids -> disk !! pid = None ->
  (exists (before : list str) (p : str) (after : list str)
          (hitss : list (list (Document * score))) (e : exn),
     paper_ids = before ++ p :: after /\
     Forall2 (hits_of disk query (Z.max 2 k)) before hitss /\
     pid ∈ p :: after /\
     (disk !! p = None /\ e = Exception (u "FAISS.load_local") \/
      exists vs, disk !! p = Some vs /\
        similarity_search_with_score vs query (Z.max 2 k) = Raise e) /\
     retrieve disk query paper_ids k = Raise e) /\
  (forall (before after : list str) (hitss : list (list (Document * score))),
     paper_ids = before ++ pid :: after ->
     Forall2 (hits_of disk query (Z.max 2 k)) before hitss ->
     retrieve disk query paper_ids k
     = Raise (Exception (u "FAISS.load_local"))).
Proof.
  intros Hin Hnone. split.
  - destruct (retrieve_loop_stops disk query (Z.max 2 k) paper_ids pid []
                Hin Hnone)
      as (before & p & after & hitss & e & Hsplit & HF & Hpid & Hstop & Hloop).
    exists before, p, after, hitss, e. repeat (split; [done|]).
    unfold retrieve. by rewrite Hloop.
  - intros before after hitss -> HF. unfold retrieve.
    by rewrite (retrieve_loop_load_error _ _ _ _ _ _ _ [] HF Hnone).
Qed.

(** C3: for a number [k] of chunks asked for, so [0 <= k], when every
    listed store loads and answers its search, [retrieve] returns the chunks
    of [top], where [top] has exactly min(k, number of hits gathered)
    entries, is in non-decreasing order of distance, and is the front of a
    reordering of the gathered hits that is sorted and keeps hits of equal
    distance in the order they were gathered (paper by paper, each in the
    rank its search gave). With no listed paper the result is the empty
    list, for every [k]. *)
Theorem retrieve_global_top_k (disk : gmap str FAISS) (query : str) :
  (forall k, retrieve disk query [] k = Ok []) /\
  (forall (paper_ids : list str) (k : Z)
          (hitss : list (list (Document * score))),
     0 ≤ k ->
     Forall2 (hits_of disk query (Z.max 2 k)) paper_ids hitss ->
     exists top,
       retrieve disk query paper_ids k = Ok (fst <$> top) /\
       Z.of_nat (length top) = Z.min k (Z.of_nat (length (concat hitss))) /\
       Sorted by_score top /\
       top = take (Z.to_nat k) (sort_by_score (concat hitss)) /\
       sort_by_score (concat hitss) ≡ₚ concat hitss /\
       Sorted by_score (sort_by_score (concat hitss)) /\
       (forall v, filter (λ y, same_score v y = true)
                    (sort_by_score (concat hitss))
                  = filter (λ y, same_score v y = true) (concat hitss))).
Proof.
  split.
  - intros k. unfold retrieve, slice_to. simpl.
    by destruct (0 <=? k); rewrite take_nil.
  - intros paper_ids k hitss Hk HF.
    exists (slice_to k (sort_by_score (concat hitss))).
    unfold retrieve. rewrite (retrieve_loop_hits _ _ _ _ _ [] HF). simpl.
    split; [done|]. split.
    { rewrite slice_to_length by done.
      by rewrite (Permutation_length (sort_by_score_perm _)). }
    rewrite slice_to_nonneg by done.
    split; [apply Sorted_by_score_take, sort_by_score_sorted|].
    split; [done|].
    split; [apply sort_by_score_perm|].
    split; [apply sort_by_score_sorted|].
    intros v. apply sort_by_score_stable.
Qed.

End RetrieveFacts.

(* ===================================================================== *)
(** ** Properties of the citation formatter and the extractive answer *)
(* ===================================================================== *)

Section FormatFacts.
Import Rag.

Lemma format_citations_fmap (docs : list Document) :
  format_citations docs = format_citation <$> docs.
Proof. induction docs as [|d docs IH]; simpl; [done | by rewrite IH]. Qed.

Lemma make_snippet_short (content : str) :
  (length content ≤ 160)%nat -> make_snippet content = content.
Proof.
  intros Hlen. unfold make_snippet.
  destruct (160 <? Z.of_nat (length content)) eqn:E; [|done].
  apply Z.ltb_lt in E. lia.
Qed.

Lemma make_snippet_long (content : str) :
  (160 < length content)%nat ->
  make_snippet content = take 160 content ++ [8230%N].
Proof.
  intros Hlen. unfold make_snippet.
  destruct (160 <? Z.of_nat (length content)) eqn:E; [done|].
  apply Z.ltb_ge in E. lia.
Qed.

(** C6: [format_citations] returns one record per chunk, in the order of the
    chunks; the record at rank [i] is read off the chunk at rank [i]: its
    text is the chunk text, its identifying fields are the metadata entries
    (or their defaults), a section that the metadata does not have is [None],
    and its snippet is the whole text up to 160 characters and otherwise the
    first 160 characters followed by the ellipsis. *)
Theorem format_citations_projects_in_order (docs : list Document) :
  length (format_citations docs) = length docs /\
  (forall (i : nat) (d : Document), docs !! i = Some d ->
     exists c, format_citations docs !! i = Some c /\
       text c = page_content d /\
       paperId c = default (VStr (u "unknown")) (metadata d !! u "paperId") /\
       paperTitle c
         = default (VStr (u "unknown")) (metadata d !! u "paperTitle") /\
       chunkId c = default (VStr (u "unknown")) (metadata d !! u "chunkId") /\
       pageStart c = default VNone (metadata d !! u "pageStart") /\
       pageEnd c = default VNone (metadata d !! u "pageEnd") /\
       section c = default VNone (metadata d !! u "section") /\
       (metadata d !! u "section" = None -> section c = VNone) /\
       pdfUrl c = VNone /\
       ((length (page_content d) ≤ 160)%nat -> snippet c = page_content d) /\
       ((160 < length (page_content d))%nat ->
          snippet c = take 160 (page_content d) ++ [8230%N] /\
          length (snippet c) = 161%nat)).
Proof.
  rewrite format_citations_fmap. split; [apply length_fmap|].
  intros i d Hd. exists (format_citation d).
  rewrite list_lookup_fmap, Hd. simpl. unfold get.
  repeat (split; [done|]).
  split; [by intros ->|]. split; [done|].
  split; [apply make_snippet_short|].
  intros Hlen. rewrite make_snippet_long by done. split; [done|].
  rewrite length_app, length_take.
  change (length [8230%N]) with 1%nat. lia.
Qed.

Lemma join_cons_cons (sep p q : str) (rest : list str) :
  join sep (p :: q :: rest) = p ++ sep ++ join sep (q :: rest).
Proof. done. Qed.

(** C7: [answer_extractively] is a function of its arguments; on an empty
    evidence list it is the fixed string; on a non-empty list it is the
    header, then one bullet per chunk separated by newlines, then the footer,
    the bullet of the chunk at rank [i] carrying the number [i + 1], the
    page of the chunk (or a question mark) and the start of its text. *)
Theorem answer_extractively_bullets (question : str) (docs : list Document) :
  answer_extractively question [] = u "Not found in the provided papers." /\
  (docs ≠ [] ->
   exists bullets : list str,
     answer_extractively question docs
       = extractive_header ++ join nl bullets ++ extractive_footer /\
     length bullets = length docs /\
     forall (i : nat) (d : Document), docs !! i = Some d ->
       bullets !! i
       = Some (u "- Evidence [" ++ str_of_int (Z.of_nat i + 1) ++ u "] (p. "
                 ++ format_value
                      (default (VStr (u "?")) (metadata d !! u "pageStart"))
                 ++ u "): " ++ take 220 (strip (page_content d)))).
Proof.
  split; [done|]. intros Hne.
  exists (imap (fun i d => bullet (S i) d) docs).
  split; [by destruct docs|]. split; [apply length_imap|].
  intros i d Hd. rewrite list_lookup_imap, Hd. simpl.
  unfold bullet, get. by rewrite Nat2Z.inj_succ, <- Z.add_1_r.
Qed.

End FormatFacts.

(* ===================================================================== *)
(** ** Properties of page stamping *)
(* ===================================================================== *)

Section StampFacts.
Import Rag.
Context `{Cap : Capabilities}.

(** Two different dictionary keys, given as literals. *)
Ltac distinct_keys :=
  let H := fresh in intros H; vm_compute in H; discriminate H.

Lemma split_documents_source (docs : list Document) (c : Document) :
  c ∈ split_documents docs ->
  exists d, d ∈ docs /\
    page_content c ∈ split_text 1000 150 (page_content d) /\
    metadata c = metadata d.
Proof.
  unfold split_documents. intros Hc.
  apply list_elem_of_bind in Hc as (d & Hc & Hd).
  apply list_elem_of_fmap in Hc as (t & -> & Ht).
  exists d. by repeat split.
Qed.

Lemma stamp_page (paper_id title : str) (i : nat) (d : Document) (p : Z) :
  metadata d !! u "page" = Some (VInt p) ->
  metadata (stamp paper_id title i d) !! u "pageStart" = Some (VInt (p + 1)) /\
  metadata (stamp paper_id title i d) !! u "pageEnd" = Some (VInt (p + 1)).
Proof.
  intros Hp. unfold stamp. cbn [metadata].
  rewrite !lookup_insert_ne by distinct_keys. rewrite Hp.
  split.
  - rewrite lookup_insert_ne by distinct_keys. by rewrite lookup_insert_eq.
  - by rewrite lookup_insert_eq.
Qed.

(** C8: every chunk that ingestion produces is a piece of the text of exactly
    one page document and carries that page's number: when the loader
    numbers the page [p], counting from 0, the chunk is stamped with
    [pageStart = pageEnd = p + 1], counting from 1, and its citation shows
    the same page twice. No chunk is assembled from more than one page. *)
Theorem stamped_chunk_single_page
    (docs : list Document) (paper_id title : str) (i : nat) (c : Document) :
  stamped_chunks docs paper_id title !! i = Some c ->
  exists d, d ∈ docs /\
    page_content c ∈ split_text 1000 150 (page_content d) /\
    forall p : Z, metadata d !! u "page" = Some (VInt p) -> 0 ≤ p ->
      exists n : Z, n = p + 1 /\ 1 ≤ n /\
        metadata c !! u "pageStart" = Some (VInt n) /\
        metadata c !! u "pageEnd" = Some (VInt n) /\
        pageStart (format_citation c) = VInt n /\
        pageEnd (format_citation c) = VInt n.
Proof.
  unfold stamped_chunks. intros Hc.
  apply list_lookup_imap_Some in Hc as (c0 & Hc0 & ->).
  apply list_elem_of_lookup_2, split_documents_source in Hc0
    as (d & Hd & Htext & Hmd).
  exists d. split; [done|]. split; [done|].
  intros p Hp Hp0. exists (p + 1). split; [done|]. split; [lia|].
  rewrite <- Hmd in Hp.
  destruct (stamp_page paper_id title i c0 p Hp) as [Hs He].
  split; [done|]. split; [done|].
  unfold format_citation, get. cbn [pageStart pageEnd]. by rewrite Hs, He.
Qed.

(** The citation of an ingested chunk names the paper, its title and the
    zero-padded rank of the chunk; in particular its title is a string. *)
Lemma stamped_chunk_identity
    (docs : list Document) (paper_id title : str) (i : nat) (c : Document) :
  stamped_chunks docs paper_id title !! i = Some c ->
  paperId (format_citation c) = VStr paper_id /\
  paperTitle (format_citation c) = VStr title /\
  chunkId (format_citation c) = VStr (u "c" ++ format_05d i).
Proof.
  unfold stamped_chunks. intros Hc.
  apply list_lookup_imap_Some in Hc as (c0 & _ & ->).
  unfold format_citation, get, stamp.
  cbn [paperId paperTitle chunkId metadata].
  destruct (_ !! u "page") as [[|p|s]|]; repeat split;
    repeat (first [ rewrite lookup_insert_eq
                  | rewrite lookup_insert_ne by distinct_keys ]);
    done.
Qed.

End StampFacts.

(* ===================================================================== *)
(** ** Properties of the evidence blocks *)
(* ===================================================================== *)

Section EvidenceFacts.
Import Rag BedrockLlm.
Context `{Cap : Capabilities}.

Lemma join_values_strs (sep : str) (parts : list str) :
  join_values sep (VStr <$> parts) = Ok (join sep parts).
Proof.
  induction parts as [|s [|r rest] IH]; [done..|].
  change (join_values sep (VStr <$> s :: r :: rest))
    with (tl ← join_values sep (VStr <$> r :: rest); mret (s ++ sep ++ tl)).
  by rewrite IH.
Qed.

Lemma provenance_items_strs (c : citation) :
  title_joinable c ->
  provenance_items c = VStr <$> (title_part c ++ section_part c ++ page_part c).
Proof.
  intros Ht. unfold provenance_items, title_part, section_part, page_part.
  unfold title_joinable in Ht.
  destruct (truthy (paperTitle c)) eqn:Etitle.
  - destruct (Ht eq_refl) as [t ->]. cbn [format_value].
    destruct (truthy (section c)), (pageStart c) as [|z|s];
      cbn [bool_decide decide_rel]; try done;
      by destruct (truthy (pageEnd c) && _).
  - destruct (truthy (section c)), (pageStart c) as [|z|s];
      cbn [bool_decide decide_rel]; try done;
      by destruct (truthy (pageEnd c) && _).
Qed.

Lemma provenance_text (c : citation) :
  title_joinable c ->
  provenance c
  = Ok (match title_part c ++ section_part c ++ page_part c with
        | [] => u "source"
        | parts => join (u " " ++ [183%N] ++ u " ") parts
        end).
Proof.
  intros Ht. unfold provenance. rewrite (provenance_items_strs c Ht).
  destruct (title_part c ++ section_part c ++ page_part c) as [|p parts] eqn:E;
    [done|].
  exact (join_values_strs _ (p :: parts)).
Qed.

(** A truthy title that is not a string makes the join raise. *)
Lemma provenance_ok_title (c : citation) (meta_str : str) :
  provenance c = Ok meta_str -> title_joinable c.
Proof.
  unfold provenance, provenance_items, title_joinable.
  destruct (paperTitle c) as [|z|t] eqn:Et; [done| |by eauto].
  intros Hok Htruthy. exfalso. revert Hok. rewrite Htruthy.
  destruct (truthy (section c)), (bool_decide (pageStart c ≠ VNone));
    try destruct (truthy (pageEnd c) && _); done.
Qed.

Lemma evidence_chunk_length (c : citation) :
  (length (evidence_chunk c) ≤ 1200)%nat.
Proof. unfold evidence_chunk. rewrite length_take. lia. Qed.

Lemma evidence_blocks_from_total (i : nat) (citations : list citation) :
  Forall title_joinable citations ->
  exists blocks, evidence_blocks_from i citations = Ok blocks.
Proof.
  intros HF. revert i. induction HF as [|c cs Ht _ IH]; intros i; [by eexists|].
  destruct (IH (S i)) as [bs Hbs]. simpl. unfold evidence_block.
  rewrite (provenance_text c Ht). simpl. rewrite Hbs. by eexists.
Qed.

Lemma evidence_blocks_from_inv (i : nat) (citations : list citation)
    (blocks : list str) :
  evidence_blocks_from i citations = Ok blocks ->
  length blocks = length citations /\
  forall (j : nat) (c : citation), citations !! j = Some c ->
    exists b, blocks !! j = Some b /\ evidence_block (i + j) c = Ok b.
Proof.
  revert i blocks. induction citations as [|c cs IH]; intros i blocks; simpl.
  - intros [= <-]. by split.
  - destruct (evidence_block i c) as [b|] eqn:Hb; simpl; [|done].
    destruct (evidence_blocks_from (S i) cs) as [bs|] eqn:Hbs; simpl; [|done].
    intros [= <-]. destruct (IH _ _ Hbs) as [Hlen Hnth].
    split; [simpl; by rewrite Hlen|].
    intros [|j] c' Hc'; simpl in Hc'.
    + injection Hc' as <-. exists b. by rewrite Nat.add_0_r.
    + destruct (Hnth j c' Hc') as (b' & Hb' & Hblock).
      exists b'. split; [done|]. by rewrite Nat.add_succ_r.
Qed.

(** The prompt is the question and the evidence under their headings,
    followed by instructions that depend on neither. *)
Lemma user_text_shape :
  exists instructions : str, forall question evidence : str,
    user_text question evidence
    = u "Question:" ++ nl ++ question ++ nl ++ nl
      ++ u "Evidence:" ++ nl ++ evidence ++ nl ++ nl
      ++ u "Instructions:" ++ nl ++ instructions.
Proof. eexists. intros question evidence. unfold user_text. reflexivity. Qed.

Lemma evidence_text_blocks (citations : list citation) (blocks : list str) :
  length blocks = length citations ->
  evidence_text blocks
  = match citations with
    | [] => u "(no evidence retrieved)"
    | _ => join (nl ++ nl) blocks
    end.
Proof. by destruct blocks, citations. Qed.

(** C9: whenever the evidence blocks are built, there is one block per
    citation, in order, and the block of the citation at rank [i] is the
    label [[i+1]], the provenance string, a newline and the citation text
    stripped and cut to its first 1200 characters. The provenance string
    joins, with a middle dot, the title (unless empty), the section marker
    (if there is a section) and the page or page range (if there is a first
    page); it is the word source when all three are missing. These blocks
    are what the generation prompt carries: for every question, the user
    message that [generate_answer_nova_micro] passes to [converse] is the
    question under its heading, then under the heading Evidence the blocks
    in order, separated by blank lines (or a placeholder when there is no
    citation), then the instructions; and the answer is made from what
    [converse] returns for that message. The blocks are built for every
    list of citations whose titles are strings. *)
Theorem evidence_blocks_labelled (citations : list citation) :
  (Forall (fun c => exists t, paperTitle c = VStr t) citations ->
   exists blocks, evidence_blocks citations = Ok blocks) /\
  (forall blocks : list str,
     evidence_blocks citations = Ok blocks ->
     length blocks = length citations /\
     (forall (i : nat) (c : citation), citations !! i = Some c ->
        exists meta_str chunk : str,
          blocks !! i
          = Some (u "[" ++ str_of_int (Z.of_nat i + 1) ++ u "] " ++ meta_str
                    ++ nl ++ chunk) /\
          chunk = take 1200 (strip (text c)) /\
          (length chunk ≤ 1200)%nat /\
          meta_str
          = match title_part c ++ section_part c ++ page_part c with
            | [] => u "source"
            | parts => join (u " " ++ [183%N] ++ u " ") parts
            end) /\
     exists instructions : str, forall question : str,
       let evidence :=
         match citations with
         | [] => u "(no evidence retrieved)"
         | _ => join (nl ++ nl) blocks
         end in
       let prompt :=
         u "Question:" ++ nl ++ question ++ nl ++ nl
         ++ u "Evidence:" ++ nl ++ evidence ++ nl ++ nl
         ++ u "Instructions:" ++ nl ++ instructions in
       generate_answer_nova_micro question citations
       = match converse system_text prompt with
         | Ok content =>
             Ok (match strip (join nl (text_parts content)) with
                 | [] => not_found
                 | answer => answer
                 end)
         | Raise e => Raise e
         end).
Proof.
  split.
  - intros HF. apply evidence_blocks_from_total.
    eapply Forall_impl; [exact HF|]. intros c [t Ht] _. eauto.
  - intros blocks Hblocks.
    destruct (evidence_blocks_from_inv 1 citations blocks Hblocks)
      as [Hlen Hnth].
    split; [done|]. split.
    + intros i c Hc.
      destruct (Hnth i c Hc) as (b & Hb & Hblock).
      unfold evidence_block in Hblock.
      destruct (provenance c) as [meta_str|] eqn:Hprov; [|done].
      pose proof (provenance_text c (provenance_ok_title c _ Hprov)) as Hmeta.
      rewrite Hprov in Hmeta. injection Hmeta as Hmeta.
      simpl in Hblock. injection Hblock as <-.
      exists meta_str, (evidence_chunk c). split.
      * by rewrite Hb, Nat2Z.inj_succ, <- Z.add_1_r.
      * split; [done|]. split; [apply evidence_chunk_length | done].
    + destruct user_text_shape as [instructions Hshape].
      exists instructions. intros question evidence prompt.
      subst prompt evidence.
      rewrite <- Hshape, <- (evidence_text_blocks citations blocks Hlen).
      unfold generate_answer_nova_micro. rewrite Hblocks.
      cbn [mbind result_bind mret result_ret].
      destruct (converse _ _) as [content|e]; simpl; [|done].
      by destruct (strip _).
Qed.

End EvidenceFacts.

(* ===================================================================== *)
(** ** Properties of the request handlers *)
(* ===================================================================== *)

Section HandlerFacts.
Import Rag.
Context `{Cap : Capabilities}.

Lemma get_paper_insert (p : Storage.paper) (papers : list Storage.paper)
    (idx : nat) :
  Storage.find_index (Storage.paperId p) papers = Some idx ->
  Storage.get_paper (Storage.paperId p) (<[idx := p]> papers) = Some p.
Proof.
  unfold Storage.get_paper. revert idx.
  induction papers as [|q rest IH]; intros idx; simpl; [done|].
  case_bool_decide as Hq.
  - intros [= <-]. simpl. by rewrite bool_decide_eq_true_2.
  - destruct (Storage.find_index (Storage.paperId p) rest) as [i|] eqn:E;
      simpl; [|done].
    intros [= <-]. simpl. rewrite bool_decide_eq_false_2 by done. by apply IH.
Qed.

(** After an upsert the store answers with the record just written. *)
Lemma get_paper_upsert (p : Storage.paper) (file : Storage.papers_json) :
  Storage.get_paper (Storage.paperId p)
    (Storage.load_papers (Storage.upsert_paper p file))
  = Some p.
Proof.
  unfold Storage.upsert_paper. cbn [Storage.save_papers Storage.load_papers].
  fold (Storage.load_papers file).
  destruct (Storage.find_index (Storage.paperId p) (Storage.load_papers file))
    as [idx|] eqn:E.
  - by apply get_paper_insert.
  - unfold Storage.get_paper. simpl. by rewrite bool_decide_eq_true_2.
Qed.

(** An ingestion that returns has built the index from all stamped chunks
    and saved it where [load_vectorstore] finds it. *)
Lemma ingest_pdf_ok_inv (disk disk' : gmap str FAISS)
    (pdf_path paper_id title : str) (n : Z) :
  ingest_pdf disk pdf_path paper_id title = (Ok n, disk') ->
  exists docs vs,
    loader_load pdf_path = Ok docs /\
    from_documents (stamped_chunks docs paper_id title) = Ok vs /\
    n = Z.of_nat (length (stamped_chunks docs paper_id title)) /\
    disk' !! paper_id = Some vs.
Proof.
  unfold ingest_pdf.
  destruct (loader_load pdf_path) as [docs|]; [|done].
  destruct (from_documents _) as [vs|] eqn:Hvs; [|done].
  destruct (save_local vs paper_id disk) as [[[]|e] disk''] eqn:Hsave; [|done].
  intros [= <- <-]. exists docs, vs. repeat (split; [done|]).
  by eapply save_local_saved.
Qed.


(** The paths of [ingest]. When the store refuses the first record, the
    request fails with nothing recorded. Otherwise the record is stored as
    processing and the pipeline runs. The request succeeds, with the record
    stored as indexed, when the pipeline returns and the store takes the
    record; it fails with the exception of the pipeline, or of the store
    refusing the indexed record, after storing the record as failed; and
    when the store refuses that record too, it fails with the exception of
    that refusal, and the record stays as processing. *)
Lemma ingest_paths (store_raises : Storage.status -> option exn)
    (st : Main.state) (req : Main.IngestReq) (uuid_hex : str) :
  let paper_id := Main.new_paper_id uuid_hex in
  let title := Main.title_of_key (Main.s3Key req) in
  let file1 :=
    Storage.upsert_paper
      (Main.processing_record paper_id title (Main.s3Key req))
      (Main.papers st) in
  let st1 := {| Main.papers := file1; Main.indexes := Main.indexes st |} in
  let run := Main.ingest store_raises st req uuid_hex in
  match store_raises Storage.processing with
  | Some e => run = (Raise e, [])
  | None =>
      exists (outcome : result Z) (disk : gmap str FAISS),
        ingest_pdf (Main.indexes st) (Main.upload_path (Main.s3Key req))
          paper_id title = (outcome, disk) /\
        let failure (e : exn) :=
          match store_raises Storage.failed with
          | Some e' => run = (Raise e', [st1])
          | None =>
              run = (Raise e,
                     [st1;
                      {| Main.papers :=
                           Storage.upsert_paper
                             (Main.failed_record paper_id title) file1;
                         Main.indexes := disk |}])
          end in
        match outcome, store_raises Storage.indexed with
        | Ok n_chunks, None =>
            run = (Ok {| Main.ingested := paper_id |},
                   [st1;
                    {| Main.papers :=
                         Storage.upsert_paper
                           (Main.indexed_record paper_id title (Main.s3Key req)
                              n_chunks) file1;
                       Main.indexes := disk |}])
        | Ok n_chunks, Some e => failure e
        | Raise e, _ => failure e
        end
  end.
Proof.
  intros paper_id title file1 st1 run. subst run. unfold Main.ingest.
  fold paper_id title file1. cbn [Main.indexes Main.papers]. fold st1.
  destruct (store_raises Storage.processing) as [e0|]; [done|].
  destruct (ingest_pdf (Main.indexes st) _ paper_id title)
    as [outcome disk] eqn:E.
  exists outcome, disk. split; [done|].
  destruct outcome as [n|e]; destruct (store_raises Storage.indexed);
    destruct (store_raises Storage.failed); done.
Qed.


(** C5: when retrieval has returned its chunks and answer generation raises,
    whatever the exception, [chat] still returns a response: its answer is
    the extractive answer over the retrieved chunks and its citations are
    the formatted chunks. *)
Theorem chat_generation_failure_falls_back
    (st : Main.state) (req : Main.ChatReq) (docs : list Document) (e : exn) :
  retrieve (Main.indexes st) (Main.question req) (Main.chat_paper_ids st req) 6
    = Ok docs ->
  BedrockLlm.generate_answer_nova_micro (Main.question req)
    (Main.with_pdf_url <$> format_citations docs) = Raise e ->
  Main.chat st req
  = Ok {| Main.answer := answer_extractively (Main.question req) docs;
          Main.citations := Main.with_pdf_url <$> format_citations docs |}.
Proof.
  intros Hdocs Hgen. unfold Main.chat. rewrite Hdocs. simpl.
  by rewrite Hgen.
Qed.

(** A failure of the Bedrock call is a failure of answer generation. *)
Lemma generate_answer_converse_raises (question : str)
    (citations : list citation) (blocks : list str) (e : exn) :
  BedrockLlm.evidence_blocks citations = Ok blocks ->
  converse BedrockLlm.system_text
    (BedrockLlm.user_text question (BedrockLlm.evidence_text blocks))
    = Raise e ->
  BedrockLlm.generate_answer_nova_micro question citations = Raise e.
Proof.
  intros Hb Hc. unfold BedrockLlm.generate_answer_nova_micro.
  rewrite Hb. simpl. by rewrite Hc.
Qed.

(** Under the filter "all" only papers recorded as indexed are searched. *)
Lemma chat_paper_ids_all (st : Main.state) (req : Main.ChatReq) (pid : str) :
  Main.paperFilter req = u "all" ->
  pid ∈ Main.chat_paper_ids st req ->
  exists p, p ∈ Storage.load_papers (Main.papers st) /\ Storage.paperId p = pid /\
    Storage.pstatus p = Storage.indexed.
Proof.
  intros Hall. unfold Main.chat_paper_ids.
  rewrite bool_decide_eq_false_2 by (by intros []).
  intros (p & -> & Hp)%list_elem_of_fmap.
  apply list_elem_of_filter in Hp as [Hidx Hp]. by exists p.
Qed.

Lemma retrieve_loop_sources (disk : gmap str FAISS) (query : str) (per_k : Z)
    (paper_ids : list str) (acc scored : list (Document * score))
    (x : Document * score) :
  retrieve_loop disk query per_k paper_ids acc = Ok scored ->
  x ∈ scored ->
  x ∈ acc \/
  exists pid hits, pid ∈ paper_ids /\ hits_of disk query per_k pid hits /\
    x ∈ hits.
Proof.
  revert acc. induction paper_ids as [|pid rest IH]; intros acc; simpl.
  - intros [= <-]. by left.
  - unfold load_vectorstore.
    destruct (disk !! pid) as [vs|] eqn:Hvs; simpl; [|done].
    destruct (similarity_search_with_score vs query per_k) as [hits|] eqn:Hs;
      simpl; [|done].
    intros Hloop Hx. destruct (IH _ Hloop Hx) as [Hacc|(p & h & Hp & Hh & Hxh)].
    + apply elem_of_app in Hacc as [Hacc|Hhit]; [by left|].
      right. exists pid, hits. split; [left|]. split; [by exists vs | done].
    + right. exists p, h. split; [by right | done].
Qed.

Lemma slice_to_subseteq {A} (k : Z) (l : list A) (x : A) :
  x ∈ slice_to k l -> x ∈ l.
Proof.
  unfold slice_to. destruct (0 <=? k); intros Hx;
    by eapply subseteq_take.
Qed.

(** Every chunk [retrieve] returns is a hit of the store of a listed
    paper. *)
Lemma retrieve_sources (disk : gmap str FAISS) (query : str)
    (paper_ids : list str) (k : Z) (docs : list Document) (d : Document) :
  retrieve disk query paper_ids k = Ok docs -> d ∈ docs ->
  exists pid hits s, pid ∈ paper_ids /\
    hits_of disk query (Z.max 2 k) pid hits /\ (d, s) ∈ hits.
Proof.
  unfold retrieve.
  destruct (retrieve_loop disk query (Z.max 2 k) paper_ids []) as [scored|]
    eqn:Hloop; simpl; [|done].
  intros [= <-] Hd.
  apply list_elem_of_fmap in Hd as ([d' s] & -> & Hx).
  apply slice_to_subseteq in Hx. rewrite sort_by_score_perm in Hx.
  destruct (retrieve_loop_sources _ _ _ _ _ _ _ Hloop Hx)
    as [Hnil|(pid & hits & Hp & Hh & Hxh)]; [by apply elem_of_nil in Hnil|].
  by exists pid, hits, s.
Qed.

(** Under the filter "all", every chunk behind the citations of a [chat]
    response is a hit of the store of a paper recorded as indexed. *)
Lemma chat_all_filter_searches_indexed_only
    (st : Main.state) (req : Main.ChatReq) (docs : list Document)
    (d : Document) :
  Main.paperFilter req = u "all" ->
  retrieve (Main.indexes st) (Main.question req) (Main.chat_paper_ids st req) 6
    = Ok docs ->
  d ∈ docs ->
  exists p hits s, p ∈ Storage.load_papers (Main.papers st) /\ Storage.pstatus p = Storage.indexed /\
    hits_of (Main.indexes st) (Main.question req) 6 (Storage.paperId p) hits /\
    (d, s) ∈ hits.
Proof.
  intros Hall Hdocs Hd.
  destruct (retrieve_sources _ _ _ _ _ _ Hdocs Hd)
    as (pid & hits & s & Hpid & Hhits & Hx).
  destruct (chat_paper_ids_all st req pid Hall Hpid) as (p & Hp & <- & Hst).
  by exists p, hits, s.
Qed.

End HandlerFacts.

(* ===================================================================== *)
(** ** The properties on the concrete installation *)
(* ===================================================================== *)

Import Rag Fixture.

(** C10 on a store of two papers, the second one being overwritten. *)
Lemma upsert_paper_one_record_per_id_witness :
  NoDup (Storage.paperId <$> Storage.load_papers two_papers) /\
  NoDup (Storage.paperId
           <$> Storage.load_papers
                 (Storage.upsert_paper
                    (Main.failed_record (u "p_bbbbbbbbbb") (u "second"))
                    two_papers)).
Proof.
  assert (Hnd : NoDup (Storage.paperId <$> Storage.load_papers two_papers)).
  { apply (bool_decide_unpack _). vm_compute. reflexivity. }
  split; [exact Hnd|].
  exact (proj1 (upsert_paper_one_record_per_id
                  (Main.failed_record (u "p_bbbbbbbbbb") (u "second"))
                  two_papers Hnd)).
Defined.

(** The sample store answers a search for two or more hits with both of its
    chunks. *)
Lemma sample_hits (k : Z) :
  2 ≤ k ->
  Forall2 (hits_of (Cap := offline) sample_disk sample_question k)
    [u "p_0123456789"] [sample_store].
Proof.
  intros Hk. constructor; [|constructor].
  exists sample_store. split; [vm_compute; reflexivity|].
  cbn [similarity_search_with_score offline].
  rewrite take_ge; [done|]. change (length sample_store) with 2%nat. lia.
Defined.

(** C2, as amended, on a list whose first id has a store that loads and
    answers and whose second id has no loadable store. *)
Lemma retrieve_unloadable_index_aborts_witness :
  u "p_missing" ∈ [u "p_0123456789"; u "p_missing"] /\
  sample_disk !! u "p_missing" = None /\
  retrieve (Cap := offline) sample_disk sample_question
    [u "p_0123456789"; u "p_missing"] 6
  = Raise (Exception (u "FAISS.load_local")).
Proof.
  assert (Hin : u "p_missing" ∈ [u "p_0123456789"; u "p_missing"])
    by (right; left).
  assert (Hnone : sample_disk !! u "p_missing" = None)
    by (vm_compute; reflexivity).
  assert (HF := sample_hits (Z.max 2 6) ltac:(lia)).
  split; [exact Hin|]. split; [exact Hnone|].
  exact (proj2 (retrieve_unloadable_index_aborts (Cap := offline) sample_disk
                  sample_question _ 6 _ Hin Hnone)
           [u "p_0123456789"] [] [sample_store] eq_refl HF).
Defined.

(** C2, as stated, fails: the store of the second listed paper loads and
    holds two chunks, the first listed id has no loadable store, and the
    query returns no chunk but raises. *)
Lemma retrieve_skips_unloadable_counterexample :
  sample_disk !! u "p_missing" = None /\
  retrieve (Cap := offline) sample_disk sample_question [u "p_0123456789"] 6
    = Ok [chunk0; chunk1] /\
  retrieve (Cap := offline) sample_disk sample_question
    [u "p_missing"; u "p_0123456789"] 6
    = Raise (Exception (u "FAISS.load_local")).
Proof. repeat split; vm_compute; reflexivity. Qed.

(** C3 for the sample store and [k = 6]. *)
Lemma retrieve_global_top_k_witness :
  0 ≤ 6 /\
  Forall2 (hits_of (Cap := offline) sample_disk sample_question (Z.max 2 6))
    [u "p_0123456789"] [sample_store] /\
  exists top : list (Document * Z),
    retrieve (Cap := offline) sample_disk sample_question [u "p_0123456789"] 6
      = Ok (fst <$> top) /\
    Z.of_nat (length top) = Z.min 6 (Z.of_nat (length (concat [sample_store]))) /\
    Sorted (by_score (Cap := offline)) top.
Proof.
  assert (H0 : 0 ≤ 6) by lia.
  assert (HF := sample_hits (Z.max 2 6) ltac:(lia)).
  split; [exact H0|]. split; [exact HF|].
  destruct (proj2 (retrieve_global_top_k (Cap := offline) sample_disk
                     sample_question) _ 6 _ H0 HF)
    as (top & Hr & Hlen & Hs & _).
  exists top. split; [exact Hr|]. split; [exact Hlen | exact Hs].
Defined.



(** C1, at the failing input: the paper is recorded as failed, its index
    directory is still loadable, and a question filtered on its id is
    answered with citations of both of its chunks; under the filter "all"
    the same state yields no citation. *)
Theorem chat_single_filter_cites_failed_paper :
  Storage.get_paper (u "p_0123456789")
    (Storage.load_papers (Main.papers stale_state))
    = Some (Main.failed_record (u "p_0123456789") (u "my paper")) /\
  (exists resp,
     Main.chat stale_state ask_one = Ok resp /\
     paperId <$> Main.citations resp
       = [VStr (u "p_0123456789"); VStr (u "p_0123456789")] /\
     text <$> Main.citations resp
       = [page_content page0; page_content page1]) /\
  Main.chat stale_state ask_all
    = Ok {| Main.answer := not_found; Main.citations := [] |}.
Proof.
  split; [vm_compute; reflexivity|]. split.
  - eexists. split; [vm_compute; reflexivity|].
    split; vm_compute; reflexivity.
  - vm_compute. reflexivity.
Qed.

(** C5 with the Bedrock client unreachable. *)
Lemma chat_generation_failure_falls_back_witness :
  retrieve (Main.indexes indexed_state) (Main.question ask_all)
    (Main.chat_paper_ids indexed_state ask_all) 6 = Ok [chunk0; chunk1] /\
  BedrockLlm.generate_answer_nova_micro (Cap := offline)
    (Main.question ask_all)
    (Main.with_pdf_url <$> format_citations [chunk0; chunk1])
    = Raise (Exception (u "converse")) /\
  Main.chat indexed_state ask_all
  = Ok {| Main.answer :=
            answer_extractively (Main.question ask_all) [chunk0; chunk1];
          Main.citations :=
            Main.with_pdf_url <$> format_citations [chunk0; chunk1] |}.
Proof.
  assert (Hdocs : retrieve (Main.indexes indexed_state) (Main.question ask_all)
            (Main.chat_paper_ids indexed_state ask_all) 6
          = Ok [chunk0; chunk1]) by (vm_compute; reflexivity).
  assert (Hgen : BedrockLlm.generate_answer_nova_micro (Cap := offline)
            (Main.question ask_all)
            (Main.with_pdf_url <$> format_citations [chunk0; chunk1])
          = Raise (Exception (u "converse"))) by (vm_compute; reflexivity).
  split; [exact Hdocs|]. split; [exact Hgen|].
  exact (chat_generation_failure_falls_back indexed_state ask_all _ _
           Hdocs Hgen).
Defined.

(** C6 on the second sample chunk. *)
Lemma format_citations_projects_in_order_witness :
  sample_chunks !! 1%nat = Some chunk1 /\
  exists c, format_citations sample_chunks !! 1%nat = Some c /\
    text c = page_content chunk1 /\
    snippet c = page_content chunk1 /\
    section c = VNone.
Proof.
  assert (Hd : sample_chunks !! 1%nat = Some chunk1)
    by (vm_compute; reflexivity).
  split; [exact Hd|].
  destruct (proj2 (format_citations_projects_in_order sample_chunks) 1%nat
              chunk1 Hd)
    as (c & Hc & Htext & _ & _ & _ & _ & _ & _ & Hsec & _ & Hshort & _).
  exists c. split; [exact Hc|]. split; [exact Htext|].
  split; [apply Hshort; vm_compute; lia | apply Hsec; vm_compute; reflexivity].
Defined.

(** C7 on the two sample chunks. *)
Lemma answer_extractively_bullets_witness :
  sample_chunks ≠ [] /\
  exists bullets : list str,
    answer_extractively sample_question sample_chunks
      = extractive_header ++ join nl bullets ++ extractive_footer /\
    length bullets = length sample_chunks.
Proof.
  assert (Hne : sample_chunks ≠ []) by (vm_compute; discriminate).
  split; [exact Hne|].
  destruct (proj2 (answer_extractively_bullets sample_question sample_chunks)
              Hne) as (bullets & Heq & Hlen & _).
  exists bullets. split; [exact Heq | exact Hlen].
Defined.

(** C8 on the second sample chunk. *)
Lemma stamped_chunk_single_page_witness :
  stamped_chunks (Cap := offline) [page0; page1] (u "p_0123456789")
    (u "my paper") !! 1%nat = Some chunk1 /\
  exists d, d ∈ [page0; page1] /\
    page_content chunk1
      ∈ split_text (Capabilities := offline) 1000 150 (page_content d).
Proof.
  assert (Hc : stamped_chunks (Cap := offline) [page0; page1]
                 (u "p_0123456789") (u "my paper") !! 1%nat = Some chunk1)
    by (vm_compute; reflexivity).
  split; [exact Hc|].
  destruct (stamped_chunk_single_page (Cap := offline) _ _ _ _ _ Hc)
    as (d & Hd & Ht & _).
  exists d. split; [exact Hd | exact Ht].
Defined.

(** C9 on one citation. *)
Lemma evidence_blocks_labelled_witness :
  Forall (fun c => exists t, paperTitle c = VStr t) [sample_citation] /\
  exists blocks : list str,
    BedrockLlm.evidence_blocks [sample_citation] = Ok blocks /\
    length blocks = length [sample_citation].
Proof.
  assert (HF : Forall (fun c => exists t, paperTitle c = VStr t)
                 [sample_citation]).
  { constructor; [|constructor]. exists (u "my paper"). reflexivity. }
  split; [exact HF|].
  destruct (proj1 (evidence_blocks_labelled (Cap := offline)
                     [sample_citation]) HF)
    as [blocks Hb].
  exists blocks. split; [exact Hb|].
  exact (proj1 (proj2 (evidence_blocks_labelled (Cap := offline)
                         [sample_citation]) blocks Hb)).
Defined.

(* ===================================================================== *)
(** ** Further properties of storage.py *)
(* ===================================================================== *)

Section StorageMoreFacts.
Import Storage.

Lemma get_paper_insert_other (p : paper) (papers : list paper) (idx : nat)
    (pid : str) :
  find_index (paperId p) papers = Some idx -> pid ≠ paperId p ->
  get_paper pid (<[idx := p]> papers) = get_paper pid papers.
Proof.
  unfold get_paper. revert idx.
  induction papers as [|q rest IH]; intros idx; simpl; [done|].
  case_bool_decide as Hq.
  - intros [= <-] Hne. simpl.
    rewrite !bool_decide_eq_false_2; [done| congruence | congruence].
  - destruct (find_index (paperId p) rest) as [i|] eqn:E; simpl; [|done].
    intros [= <-] Hne. simpl. destruct (bool_decide (paperId q = pid)); [done|].
    by apply IH.
Qed.

Lemma get_paper_first (p : paper) (papers : list paper) (idx : nat) :
  find_index (paperId p) papers = Some idx ->
  get_paper (paperId p) (<[idx := p]> papers) = Some p.
Proof.
  unfold get_paper. revert idx.
  induction papers as [|q rest IH]; intros idx; simpl; [done|].
  case_bool_decide as Hq.
  - intros [= <-]. simpl. by rewrite bool_decide_eq_true_2.
  - destruct (find_index (paperId p) rest) as [i|] eqn:E; simpl; [|done].
    intros [= <-]. simpl. rewrite bool_decide_eq_false_2 by done. by apply IH.
Qed.

Lemma get_paper_upsert_other (p : paper) (file : papers_json) (pid : str) :
  pid ≠ paperId p ->
  get_paper pid (load_papers (upsert_paper p file))
  = get_paper pid (load_papers file).
Proof.
  intros Hne. unfold upsert_paper. cbn [save_papers load_papers].
  fold (load_papers file).
  destruct (find_index (paperId p) (load_papers file)) as [idx|] eqn:E.
  - by apply get_paper_insert_other.
  - unfold get_paper. simpl. by rewrite bool_decide_eq_false_2 by congruence.
Qed.

Lemma upsert_paper_ids_eq (p : paper) (file : papers_json) :
  paperId <$> load_papers (upsert_paper p file)
  = if bool_decide (paperId p ∈ paperId <$> load_papers file)
    then paperId <$> load_papers file
    else paperId p :: (paperId <$> load_papers file).
Proof.
  unfold upsert_paper. cbn [save_papers load_papers]. fold (load_papers file).
  destruct (find_index (paperId p) (load_papers file)) as [idx|] eqn:E.
  - destruct (find_index_Some _ _ _ E) as [(q & Hq & Hid) _].
    rewrite bool_decide_eq_true_2.
    + by eapply fmap_insert_same_key.
    + apply list_elem_of_fmap. exists q. split; [done|].
      by eapply list_elem_of_lookup_2.
  - apply find_index_None in E. by rewrite bool_decide_eq_false_2.
Qed.

Lemma upsert_paper_NoDup (p : paper) (file : papers_json) :
  NoDup (paperId <$> load_papers file) ->
  NoDup (paperId <$> load_papers (upsert_paper p file)).
Proof.
  intros Hnd. rewrite upsert_paper_ids_eq. case_bool_decide; [done|].
  by apply NoDup_cons.
Qed.


Lemma get_paper_Some (papers : list paper) (pid : str) (r : paper) :
  get_paper pid papers = Some r -> r ∈ papers /\ paperId r = pid.
Proof.
  unfold get_paper. intros Hf. apply List.find_some in Hf as [Hin Hid].
  split; [by apply list_elem_of_In | by apply bool_decide_eq_true in Hid].
Qed.

(** X1: after [upsert_paper] the store answers a lookup of the written id
    with the written record, also when the store held several records of
    that id, and answers a lookup of any other id as before. *)
Theorem upsert_paper_then_lookup (p : paper) (file : papers_json) :
  get_paper (paperId p) (load_papers (upsert_paper p file)) = Some p /\
  (forall pid, pid ≠ paperId p ->
     get_paper pid (load_papers (upsert_paper p file))
     = get_paper pid (load_papers file)).
Proof.
  split.
  - unfold upsert_paper. cbn [save_papers load_papers].
    fold (load_papers file).
    destruct (find_index (paperId p) (load_papers file)) as [idx|] eqn:E.
    + by apply get_paper_first.
    + unfold get_paper. simpl. by rewrite bool_decide_eq_true_2.
  - intros pid Hne. by apply get_paper_upsert_other.
Qed.

(** X2: [upsert_paper] never drops a record: the sequence of stored ids is
    unchanged when the id was stored already, and has the new id in front
    otherwise; so the store grows by at most one record. *)
Theorem upsert_paper_ids (p : paper) (file : papers_json) :
  paperId <$> load_papers (upsert_paper p file)
  = (if bool_decide (paperId p ∈ paperId <$> load_papers file)
     then paperId <$> load_papers file
     else paperId p :: (paperId <$> load_papers file)) /\
  (length (load_papers file) ≤ length (load_papers (upsert_paper p file))
   ≤ S (length (load_papers file)))%nat.
Proof.
  split; [apply upsert_paper_ids_eq|].
  rewrite <- !(length_fmap paperId), upsert_paper_ids_eq.
  case_bool_decide; simpl; lia.
Qed.

Lemma find_index_insert (p : paper) (papers : list paper) (idx : nat) :
  find_index (paperId p) papers = Some idx ->
  find_index (paperId p) (<[idx := p]> papers) = Some idx.
Proof.
  revert idx. induction papers as [|q rest IH]; intros idx; simpl; [done|].
  case_bool_decide as Hq.
  - intros [= <-]. simpl. by rewrite bool_decide_eq_true_2.
  - destruct (find_index (paperId p) rest) as [i|] eqn:E; simpl; [|done].
    intros [= <-]. simpl. rewrite bool_decide_eq_false_2 by done.
    by rewrite (IH i eq_refl).
Qed.

(** X3: writing the same record twice is the same as writing it once. *)
Theorem upsert_paper_idempotent (p : paper) (file : papers_json) :
  upsert_paper p (upsert_paper p file) = upsert_paper p file.
Proof.
  unfold upsert_paper at 1. unfold upsert_paper at 1.
  cbn [save_papers load_papers]. fold (load_papers file).
  unfold upsert_paper. cbn [save_papers load_papers]. fold (load_papers file).
  destruct (find_index (paperId p) (load_papers file)) as [idx|] eqn:E.
  - rewrite (find_index_insert _ _ _ E). by rewrite list_insert_insert_eq.
  - simpl. by rewrite bool_decide_eq_true_2.
Qed.

End StorageMoreFacts.

(* ===================================================================== *)
(** ** Numerals, whitespace and separators *)
(* ===================================================================== *)

(** Two string literals that differ. *)
Ltac literal_ne :=
  let H := fresh in intros H; vm_compute in H; discriminate H.

Section PyFacts.

Lemma ascii_literal_u (s : string) : ascii_literal (u s) = s.
Proof.
  induction s as [|a s IH]; simpl; [done|].
  by rewrite ascii_N_embedding, IH.
Qed.

Lemma to_int_nonneg (z : Z) :
  0 ≤ z -> exists d, Z.to_int z = Decimal.Pos d /\ d ≠ Decimal.Nil.
Proof.
  destruct z as [|p|p]; intros Hz; [by eexists | | lia].
  exists (Pos.to_uint p). split; [done|]. apply Unsigned.to_uint_nonnil.
Qed.

Lemma uint_of_zeros (n : nat) (s : str) :
  NilEmpty.uint_of_string (ascii_literal (replicate n 48%N ++ s))
  = Nat.iter n Decimal.D0 <$> NilEmpty.uint_of_string (ascii_literal s).
Proof.
  induction n as [|n IH]; simpl.
  - by destruct (NilEmpty.uint_of_string _).
  - rewrite IH. by destruct (NilEmpty.uint_of_string (ascii_literal s)).
Qed.

Lemma of_uint_zeros (n : nat) (d : Decimal.uint) :
  Z.of_uint (Nat.iter n Decimal.D0 d) = Z.of_uint d.
Proof. induction n as [|n IH]; [done|]. by rewrite <- IH. Qed.

(** Reading back a printed integer gives the integer. *)
Lemma numeral_value_str_of_int (z : Z) : numeral_value (str_of_int z) = Some z.
Proof.
  unfold numeral_value, str_of_int. rewrite ascii_literal_u.
  rewrite NilZero.isi.
  - simpl. by rewrite DecimalZ.of_to.
  - destruct z; [done| |done]. intros [= H]. by apply Unsigned.to_uint_nonnil in H.
  - destruct z; [done|done|]. intros [= H]. by apply Unsigned.to_uint_nonnil in H.
Qed.

(** Leading zeros do not change the number read. *)
Lemma numeral_value_padded (n : nat) (z : Z) :
  0 ≤ z -> numeral_value (replicate n 48%N ++ str_of_int z) = Some z.
Proof.
  intros Hz. destruct n as [|n]; [apply numeral_value_str_of_int|].
  destruct (to_int_nonneg z Hz) as (d & Hd & Hnil).
  unfold numeral_value.
  change (ascii_literal (replicate (S n) 48%N ++ str_of_int z))
    with (String "0" (ascii_literal (replicate n 48%N ++ str_of_int z))).
  change (NilZero.int_of_string (String "0" ?s))
    with (option_map Decimal.Pos
            (uint_of_char "0" (NilEmpty.uint_of_string s))).
  rewrite uint_of_zeros. unfold str_of_int. rewrite ascii_literal_u, Hd.
  assert (Hs : NilZero.string_of_int (Decimal.Pos d)
               = NilEmpty.string_of_uint d) by (by destruct d).
  rewrite Hs, NilEmpty.usu. simpl.
  f_equal.
  change (Z.of_uint (Nat.iter (S n) Decimal.D0 d) = z).
  rewrite of_uint_zeros.
  change (Z.of_int (Decimal.Pos d) = z). rewrite <- Hd. apply DecimalZ.of_to.
Qed.

Lemma format_05d_value (i : nat) :
  numeral_value (format_05d i) = Some (Z.of_nat i).
Proof. unfold format_05d. apply numeral_value_padded. lia. Qed.

Lemma format_05d_inj (i j : nat) : format_05d i = format_05d j -> i = j.
Proof.
  intros Heq. pose proof (format_05d_value i) as Hi.
  rewrite Heq, format_05d_value in Hi. injection Hi as Hi. lia.
Qed.

Lemma lstrip_spec (s : str) :
  exists w, s = w ++ lstrip s /\ Forall (λ c, isspace c = true) w.
Proof.
  induction s as [|c s (w & Hs & Hw)]; [by exists []|]. simpl.
  destruct (isspace c) eqn:Hc.
  - exists (c :: w). split; [by rewrite Hs at 1 | by constructor].
  - by exists [].
Qed.

Lemma lstrip_head (s t : str) (c : N) :
  lstrip s = c :: t -> isspace c = false.
Proof.
  induction s as [|x s IH]; simpl; [done|].
  destruct (isspace x) eqn:Hx; [done|]. by intros [= <- _].
Qed.

Lemma lstrip_fixed (s : str) :
  (forall c, head s = Some c -> isspace c = false) -> lstrip s = s.
Proof.
  destruct s as [|c s]; [done|]. intros Hhead. simpl.
  by rewrite (Hhead c eq_refl).
Qed.

Lemma rstrip_spec (s : str) :
  exists w, s = rstrip s ++ w /\ Forall (λ c, isspace c = true) w.
Proof.
  destruct (lstrip_spec (reverse s)) as (w & Hs & Hw).
  exists (reverse w). split; [|by apply Forall_reverse].
  unfold rstrip. rewrite <- reverse_app, <- Hs. by rewrite reverse_involutive.
Qed.

Lemma rstrip_last (s : str) (c : N) :
  last (rstrip s) = Some c -> isspace c = false.
Proof.
  unfold rstrip. rewrite last_reverse.
  destruct (lstrip (reverse s)) as [|x t] eqn:E; [done|].
  intros [= <-]. by eapply lstrip_head.
Qed.

Lemma rstrip_fixed (s : str) :
  (forall c, last s = Some c -> isspace c = false) -> rstrip s = s.
Proof.
  intros Hlast. unfold rstrip. rewrite lstrip_fixed.
  - apply reverse_involutive.
  - intros c. rewrite head_reverse. apply Hlast.
Qed.

(** A stripped string neither starts nor ends with whitespace. *)
Lemma strip_head (s : str) (c : N) :
  head (strip s) = Some c -> isspace c = false.
Proof.
  unfold strip. destruct (rstrip_spec (lstrip s)) as (w & Hs & _).
  destruct (rstrip (lstrip s)) as [|x t]; [done|].
  intros [= <-]. by eapply lstrip_head.
Qed.

Lemma strip_last (s : str) (c : N) :
  last (strip s) = Some c -> isspace c = false.
Proof. apply rstrip_last. Qed.

Lemma strip_idempotent (s : str) : strip (strip s) = strip s.
Proof.
  unfold strip at 1. rewrite lstrip_fixed by apply strip_head.
  apply rstrip_fixed, strip_last.
Qed.

(** The pieces of a split hold no separator, and the separator joins them
    back into the string. *)
Lemma split_no_separator (c : N) (s : str) : Forall (λ p, c ∉ p) (split c s).
Proof.
  induction s as [|x s IH]; simpl.
  - constructor; [apply not_elem_of_nil | constructor].
  - destruct (N.eqb_spec x c) as [->|Hne].
    + constructor; [apply not_elem_of_nil | done].
    + destruct (split c s) as [|p ps]; inversion IH; subst;
        constructor; try done; rewrite not_elem_of_cons; split; try done;
        by apply not_elem_of_nil.
Qed.

Lemma split_nonempty (c : N) (s : str) : split c s ≠ [].
Proof.
  destruct s as [|x s]; simpl; [done|].
  destruct (x =? c)%N; [done|]. by destruct (split c s).
Qed.

Lemma join_split (c : N) (s : str) : join [c] (split c s) = s.
Proof.
  induction s as [|x s IH]; simpl; [done|].
  pose proof (split_nonempty c s) as Hne.
  destruct (N.eqb_spec x c) as [->|Hxc].
  - destruct (split c s) as [|p ps]; [done|]. by rewrite <- IH.
  - destruct (split c s) as [|p [|q ps]]; [done| |]; by rewrite <- IH.
Qed.

Lemma split_at_separator (c : N) (a b : str) :
  exists p q ps, split c (a ++ c :: b) = p :: q :: ps.
Proof.
  induction a as [|x a (p & q & ps & IH)]; simpl.
  - rewrite N.eqb_refl. pose proof (split_nonempty c b).
    destruct (split c b) as [|q ps]; [done|]. by exists [], q, ps.
  - destruct (x =? c)%N; rewrite IH; by eexists _, _, _.
Qed.

(** The last piece is what follows the last separator. *)
Lemma last_split_app (c : N) (a b : str) :
  last (split c (a ++ c :: b)) = last (split c b).
Proof.
  induction a as [|x a IH]; simpl.
  - rewrite N.eqb_refl. pose proof (split_nonempty c b).
    by destruct (split c b).
  - rewrite <- IH. destruct (split_at_separator c a b) as (p & q & ps & ->).
    by destruct (x =? c)%N.
Qed.

Lemma split_no_occurrence (c : N) (s : str) : c ∉ s -> split c s = [s].
Proof.
  induction s as [|x s IH]; simpl; [done|].
  rewrite not_elem_of_cons. intros [Hne Hs].
  by rewrite (proj2 (N.eqb_neq x c)), IH by done.
Qed.

(** Replacing never brings in a character that is neither in the string
    nor in the replacement, and replacing a single character removes it. *)
Lemma replace_from_avoids (old new s : str) (k : nat) (c : N) :
  c ∉ new -> c ∉ s -> c ∉ replace_from old new k s.
Proof.
  intros Hnew. revert k. induction s as [|x s IH]; intros k; simpl; [done|].
  rewrite not_elem_of_cons. intros [Hx Hs].
  destruct k; [|by apply IH].
  destruct (startswith old (x :: s)).
  - rewrite not_elem_of_app. split; [done | by apply IH].
  - rewrite not_elem_of_cons. split; [done | by apply IH].
Qed.

Lemma replace_char_gone (a : N) (new s : str) :
  a ∉ new -> a ∉ replace [a] new s.
Proof.
  intros Hnew. unfold replace. induction s as [|x s IH]; simpl.
  - apply not_elem_of_nil.
  - destruct (N.eqb_spec a x) as [->|Hne]; simpl.
    + rewrite not_elem_of_app. by split.
    + rewrite not_elem_of_cons. by split.
Qed.

End PyFacts.

(* ===================================================================== *)
(** ** Further properties of rag.py *)
(* ===================================================================== *)

Section RagMoreFacts.
Import Rag.
Context `{Cap : Capabilities}.

(** The keys that the stamping loop writes. *)
Lemma stamp_chunkId (paper_id title : str) (i : nat) (d : Document) :
  metadata (stamp paper_id title i d) !! u "chunkId"
  = Some (VStr (u "c" ++ format_05d i)).
Proof.
  unfold stamp. cbn [metadata].
  destruct (_ !! u "page") as [[|p|s]|];
    repeat (first [ rewrite lookup_insert_eq
                  | rewrite lookup_insert_ne by literal_ne ]);
    done.
Qed.

(** X4: within one ingested document the chunk ids are pairwise different,
    however many chunks there are: two chunks with the same [chunkId] are at
    the same rank. *)
Theorem stamped_chunk_ids_distinct
    (docs : list Document) (paper_id title : str) (i j : nat)
    (c c' : Document) :
  stamped_chunks docs paper_id title !! i = Some c ->
  stamped_chunks docs paper_id title !! j = Some c' ->
  metadata c !! u "chunkId" = metadata c' !! u "chunkId" ->
  i = j.
Proof.
  unfold stamped_chunks. intros Hc Hc'.
  apply list_lookup_imap_Some in Hc as (c0 & _ & ->).
  apply list_lookup_imap_Some in Hc' as (c0' & _ & ->).
  rewrite !stamp_chunkId. intros [= Heq]. by apply format_05d_inj.
Qed.

Lemma stamp_keeps_key (paper_id title : str) (i : nat) (d : Document)
    (key : str) :
  key ∉ [u "paperId"; u "paperTitle"; u "chunkId"; u "pageStart";
         u "pageEnd"] ->
  metadata (stamp paper_id title i d) !! key = metadata d !! key.
Proof.
  intros Hkey. unfold stamp. cbn [metadata].
  assert (Hne : forall k, k ∈ [u "paperId"; u "paperTitle"; u "chunkId";
                               u "pageStart"; u "pageEnd"] -> k ≠ key)
    by (intros k Hk ->; done).
  destruct (_ !! u "page") as [[|p|s]|];
    rewrite !lookup_insert_ne; try done; apply Hne; set_solver.
Qed.

(** X5: stamping keeps what the loader and the splitter produced: the chunk
    at rank [i] has the text of the [i]-th piece, and every metadata entry
    other than the five stamped ones is the loader's. *)
Theorem stamped_chunk_keeps_loader_metadata
    (docs : list Document) (paper_id title : str) (i : nat) (c : Document) :
  stamped_chunks docs paper_id title !! i = Some c ->
  exists c0, split_documents docs !! i = Some c0 /\
    page_content c = page_content c0 /\
    forall key : str,
      key ∉ [u "paperId"; u "paperTitle"; u "chunkId"; u "pageStart";
             u "pageEnd"] ->
      metadata c !! key = metadata c0 !! key.
Proof.
  unfold stamped_chunks. intros Hc.
  apply list_lookup_imap_Some in Hc as (c0 & Hc0 & ->).
  exists c0. split; [done|]. split; [done|].
  intros key Hkey. by apply stamp_keeps_key.
Qed.

Lemma split_documents_length (docs : list Document) :
  length (split_documents docs)
  = sum_list ((λ d, length (split_text 1000 150 (page_content d))) <$> docs).
Proof.
  unfold split_documents. induction docs as [|d docs IH]; [done|].
  rewrite fmap_cons. cbn [mbind list_bind sum_list sum_list_with].
  rewrite length_app, length_fmap. f_equal. exact IH.
Qed.

(** X6: an ingestion that returns has loaded the PDF, built the index from
    the stamped chunks of its pages, and stored it under the paper's id,
    where [load_vectorstore] finds it. *)
Theorem ingest_pdf_then_load (disk disk' : gmap str FAISS)
    (pdf_path paper_id title : str) (n : Z) :
  ingest_pdf disk pdf_path paper_id title = (Ok n, disk') ->
  exists docs vs,
    loader_load pdf_path = Ok docs /\
    from_documents (stamped_chunks docs paper_id title) = Ok vs /\
    load_vectorstore disk' paper_id = Ok vs.
Proof.
  intros (docs & vs & Hdocs & Hvs & _ & Hload)%ingest_pdf_ok_inv.
  exists docs, vs. split; [done|]. split; [done|].
  unfold load_vectorstore. by rewrite Hload.
Qed.

(** X7: the count that [ingest_pdf] returns is the number of pieces the
    splitter cuts, summed over the pages the loader returned. *)
Theorem ingest_pdf_chunk_count (disk disk' : gmap str FAISS)
    (pdf_path paper_id title : str) (n : Z) :
  ingest_pdf disk pdf_path paper_id title = (Ok n, disk') ->
  exists docs,
    loader_load pdf_path = Ok docs /\
    n = Z.of_nat
          (sum_list
             ((λ d, length (split_text 1000 150 (page_content d))) <$> docs)).
Proof.
  intros (docs & vs & Hdocs & _ & -> & _)%ingest_pdf_ok_inv.
  exists docs. split; [done|].
  unfold stamped_chunks. by rewrite length_imap, split_documents_length.
Qed.

Lemma retrieve_loop_ok_inv (disk : gmap str FAISS) (query : str) (per_k : Z)
    (paper_ids : list str) (acc scored : list (Document * score)) :
  retrieve_loop disk query per_k paper_ids acc = Ok scored ->
  exists hitss, Forall2 (hits_of disk query per_k) paper_ids hitss /\
    scored = acc ++ concat hitss.
Proof.
  revert acc. induction paper_ids as [|pid rest IH]; intros acc; simpl.
  - intros [= <-]. exists []. split; [constructor | by rewrite app_nil_r].
  - unfold load_vectorstore.
    destruct (disk !! pid) as [vs|] eqn:Hvs; simpl; [|done].
    destruct (similarity_search_with_score vs query per_k) as [hits|] eqn:Hs;
      simpl; [|done].
    intros (hitss & HF & ->)%IH. exists (hits :: hitss). split.
    + constructor; [by exists vs | done].
    + simpl. by rewrite (assoc_L (++)).
Qed.

(** X8: [retrieve] returns a result exactly when the store of every listed
    paper loads and answers the search; otherwise it raises. *)
Theorem retrieve_succeeds_iff (disk : gmap str FAISS) (query : str)
    (paper_ids : list str) (k : Z) :
  (exists docs, retrieve disk query paper_ids k = Ok docs) <->
  (exists hitss, Forall2 (hits_of disk query (Z.max 2 k)) paper_ids hitss).
Proof.
  unfold retrieve. split.
  - intros [docs Hdocs].
    destruct (retrieve_loop disk query (Z.max 2 k) paper_ids []) as [scored|]
      eqn:Hloop; [|done].
    apply retrieve_loop_ok_inv in Hloop as (hitss & HF & _). by exists hitss.
  - intros [hitss HF]. rewrite (retrieve_loop_hits _ _ _ _ _ [] HF).
    by eexists.
Qed.

(** X9: with a negative [k] the slice drops the last [-k] hits of the
    sorted pool: [retrieve] returns max(0, gathered + k) chunks, the
    closest ones. *)
Theorem retrieve_negative_k (disk : gmap str FAISS) (query : str)
    (paper_ids : list str) (k : Z) (hitss : list (list (Document * score))) :
  k < 0 ->
  Forall2 (hits_of disk query (Z.max 2 k)) paper_ids hitss ->
  exists top,
    retrieve disk query paper_ids k = Ok (fst <$> top) /\
    top `prefix_of` sort_by_score (concat hitss) /\
    Z.of_nat (length top) = Z.max 0 (Z.of_nat (length (concat hitss)) + k).
Proof.
  intros Hk HF. unfold retrieve.
  rewrite (retrieve_loop_hits _ _ _ _ _ [] HF). simpl.
  unfold slice_to. rewrite (proj2 (Z.leb_gt 0 k)) by done.
  eexists. split; [done|]. split; [apply prefix_take|].
  rewrite length_take, (Permutation_length (sort_by_score_perm _)). lia.
Qed.

(** X11: a snippet has at most 161 characters and agrees with the chunk
    text on its first 160. *)
Theorem snippet_bounded (d : Document) :
  (length (snippet (format_citation d)) ≤ 161)%nat /\
  take 160 (snippet (format_citation d)) = take 160 (page_content d).
Proof.
  cbn [format_citation snippet].
  destruct (decide (length (page_content d) ≤ 160)%nat) as [Hle|Hgt].
  - rewrite make_snippet_short by done. split; [lia | done].
  - rewrite make_snippet_long by lia. split.
    + rewrite length_app, length_take.
      change (length [8230%N]) with 1%nat. lia.
    + rewrite take_app_le by (rewrite length_take; lia).
      rewrite take_take. by rewrite Nat.min_id.
Qed.

End RagMoreFacts.

(* ===================================================================== *)
(** ** Further properties of bedrock_llm.py *)
(* ===================================================================== *)

Section AnswerFacts.
Import Rag BedrockLlm.
Context `{Cap : Capabilities}.

(** X12: an answer that [generate_answer_nova_micro] returns is never
    empty and has no whitespace at either end: a reply of the model that
    is blank once stripped is replaced by the not-found string. *)
Theorem generate_answer_never_blank (question : str)
    (citations : list citation) (answer : str) :
  generate_answer_nova_micro question citations = Ok answer ->
  answer ≠ [] /\ strip answer = answer.
Proof.
  unfold generate_answer_nova_micro.
  destruct (evidence_blocks citations) as [blocks|]; simpl; [|done].
  destruct (converse _ _) as [content|]; simpl; [|done].
  destruct (strip (join nl (text_parts content))) as [|c t] eqn:E;
    intros [= <-].
  - split; [vm_compute; discriminate | vm_compute; reflexivity].
  - split; [done|]. rewrite <- E. apply strip_idempotent.
Qed.

Lemma join_values_raise (sep : str) (items : list value) (e : exn) :
  join_values sep items = Raise e -> e = Exception (u "TypeError").
Proof.
  induction items as [|v items IH]; simpl; [done|].
  destruct v as [|z|s]; [by intros [= <-] | by intros [= <-] |].
  destruct items as [|w items]; [done|].
  destruct (join_values sep (w :: items)) as [tl|e'] eqn:E; simpl; [done|].
  intros [= <-]. by apply IH.
Qed.

Lemma evidence_block_raise (i : nat) (c : citation) (e : exn) :
  evidence_block i c = Raise e -> e = Exception (u "TypeError").
Proof.
  unfold evidence_block, provenance.
  destruct (provenance_items c) as [|v items]; [done|].
  match goal with
  | |- context [join_values ?sep ?l] =>
      destruct (join_values sep l) as [m|e'] eqn:E
  end; simpl; [done|].
  intros [= <-]. by eapply join_values_raise.
Qed.

Lemma evidence_block_integer_title (i : nat) (c : citation) (z : Z) :
  paperTitle c = VInt z -> z ≠ 0 ->
  evidence_block i c = Raise (Exception (u "TypeError")).
Proof.
  intros Ht Hz. unfold evidence_block, provenance, provenance_items.
  rewrite Ht. cbn [truthy]. rewrite (proj2 (Z.eqb_neq z 0)) by done.
  cbn [negb app].
  destruct (truthy (section c)), (bool_decide (pageStart c ≠ VNone));
    try destruct (truthy (pageEnd c) && _); done.
Qed.

Lemma evidence_blocks_from_integer_title (i : nat)
    (citations : list citation) (c : citation) (z : Z) :
  c ∈ citations -> paperTitle c = VInt z -> z ≠ 0 ->
  evidence_blocks_from i citations = Raise (Exception (u "TypeError")).
Proof.
  intros Hin Ht Hz. revert i.
  induction citations as [|c0 cs IH]; intros i; [by apply elem_of_nil in Hin|].
  simpl. destruct (evidence_block i c0) as [b|e] eqn:Hb; simpl.
  - apply elem_of_cons in Hin as [->|Hin].
    + by rewrite (evidence_block_integer_title i c0 z Ht Hz) in Hb.
    + by rewrite (IH Hin).
  - by rewrite (evidence_block_raise _ _ _ Hb).
Qed.

(** X13: a citation whose title is a non-zero integer makes the join of
    the provenance entries raise a [TypeError] while the prompt is being
    built, whatever the Bedrock call would have answered. *)
Theorem generate_answer_integer_title (question : str)
    (citations : list citation) (c : citation) (z : Z) :
  c ∈ citations -> paperTitle c = VInt z -> z ≠ 0 ->
  generate_answer_nova_micro question citations
  = Raise (Exception (u "TypeError")).
Proof.
  intros Hin Ht Hz. unfold generate_answer_nova_micro, evidence_blocks.
  by rewrite (evidence_blocks_from_integer_title 1 citations c z Hin Ht Hz).
Qed.

(** X14: the provenance string of a chunk that ingestion stamped from a
    numbered page, in a paper with a title and without section metadata, is
    the title, a middle dot and the single page: never a page range. *)
Theorem ingested_chunk_provenance
    (docs : list Document) (paper_id title : str) (i : nat) (c : Document)
    (p : Z) :
  stamped_chunks docs paper_id title !! i = Some c ->
  metadata c !! u "page" = Some (VInt p) ->
  metadata c !! u "section" = None ->
  title ≠ [] ->
  provenance (Main.with_pdf_url (format_citation c))
  = Ok (title ++ u " " ++ [183%N] ++ u " p. " ++ str_of_int (p + 1)).
Proof.
  intros Hc Hpage Hsection Htitle.
  destruct (stamped_chunk_identity _ _ _ _ _ Hc) as (_ & Htitle_c & _).
  assert (Hstart : metadata c !! u "pageStart" = Some (VInt (p + 1)) /\
                   metadata c !! u "pageEnd" = Some (VInt (p + 1))).
  { unfold stamped_chunks in Hc.
    apply list_lookup_imap_Some in Hc as (c0 & _ & ->).
    apply stamp_page. rewrite stamp_keeps_key in Hpage; [done|].
    rewrite !not_elem_of_cons. repeat split; try literal_ne.
    apply not_elem_of_nil. }
  destruct Hstart as [Hstart Hend].
  rewrite provenance_text.
  - unfold title_part, section_part, page_part.
    cbn [Main.with_pdf_url paperTitle section pageStart pageEnd].
    rewrite Htitle_c. unfold format_citation, get.
    cbn [section pageStart pageEnd]. rewrite Hsection, Hstart, Hend.
    cbn [default id truthy format_value].
    rewrite bool_decide_eq_false_2 by done. cbn [negb].
    rewrite bool_decide_eq_false_2 by (by intros []).
    rewrite andb_false_r. cbn [app join].
    by rewrite <- !(assoc_L (++)).
  - intros _. exists title.
    cbn [Main.with_pdf_url paperTitle]. exact Htitle_c.
Qed.

End AnswerFacts.

(* ===================================================================== *)
(** ** Further properties of main.py *)
(* ===================================================================== *)

Section ChatMoreFacts.
Import Rag.
Context `{Cap : Capabilities}.

Lemma chat_ok_inv (st : Main.state) (req : Main.ChatReq) (resp : Main.ChatResp) :
  Main.chat st req = Ok resp ->
  exists docs,
    retrieve (Main.indexes st) (Main.question req)
      (Main.chat_paper_ids st req) 6 = Ok docs /\
    Main.citations resp = Main.with_pdf_url <$> format_citations docs.
Proof.
  unfold Main.chat.
  destruct (retrieve _ _ _ 6) as [docs|] eqn:Hdocs; simpl; [|done].
  intros [= <-]. by exists docs.
Qed.

Lemma retrieve_length_le (disk : gmap str FAISS) (query : str)
    (paper_ids : list str) (k : Z) (docs : list Document) :
  0 ≤ k -> retrieve disk query paper_ids k = Ok docs ->
  Z.of_nat (length docs) ≤ k.
Proof.
  intros Hk. unfold retrieve.
  destruct (retrieve_loop _ _ _ _ _) as [scored|]; simpl; [|done].
  intros [= <-]. rewrite length_fmap, slice_to_length by done. lia.
Qed.

(** X15: a response of [chat] carries at most six citations, one per
    retrieved chunk. *)
Theorem chat_citations_at_most_six
    (st : Main.state) (req : Main.ChatReq) (resp : Main.ChatResp) :
  Main.chat st req = Ok resp ->
  (length (Main.citations resp) ≤ 6)%nat.
Proof.
  intros (docs & Hdocs & ->)%chat_ok_inv.
  apply retrieve_length_le in Hdocs; [|lia].
  rewrite length_fmap, format_citations_fmap, length_fmap. lia.
Qed.

(** X16: the citations of a response are, in order, those of the chunks
    that retrieval returned for the question and the searched papers: each
    has the fields the formatter built from its chunk, and links to the PDF
    route of the paper id of that chunk. *)
Theorem chat_citation_links
    (st : Main.state) (req : Main.ChatReq) (resp : Main.ChatResp) :
  Main.chat st req = Ok resp ->
  exists docs,
    retrieve (Main.indexes st) (Main.question req)
      (Main.chat_paper_ids st req) 6 = Ok docs /\
    Forall2 (fun d c =>
               text c = page_content d /\
               snippet c = snippet (format_citation d) /\
               paperId c = paperId (format_citation d) /\
               paperTitle c = paperTitle (format_citation d) /\
               section c = section (format_citation d) /\
               pageStart c = pageStart (format_citation d) /\
               pageEnd c = pageEnd (format_citation d) /\
               chunkId c = chunkId (format_citation d) /\
               pdfUrl c
               = VStr (u "http://localhost:3001/pdf/"
                         ++ format_value (paperId (format_citation d))))
      docs (Main.citations resp).
Proof.
  intros (docs & Hdocs & ->)%chat_ok_inv. rewrite format_citations_fmap.
  exists docs. split; [done|].
  rewrite <- list_fmap_compose. apply Forall2_fmap_r.
  by apply Forall_Forall2_diag, Forall_true.
Qed.

(** X18: a question filtered on an id that has no loadable index is not
    answered with an empty result: [chat] raises the load error, whatever
    the store says about that id. *)
Theorem chat_unknown_paper_raises (st : Main.state) (req : Main.ChatReq) :
  Main.paperFilter req ≠ u "all" ->
  Main.indexes st !! Main.paperFilter req = None ->
  Main.chat st req = Raise (Exception (u "FAISS.load_local")).
Proof.
  intros Hone Hnone. unfold Main.chat, Main.chat_paper_ids.
  rewrite bool_decide_eq_true_2 by done.
  unfold retrieve. simpl. unfold load_vectorstore. by rewrite Hnone.
Qed.

(** X19: under the filter "all", when no paper is recorded as indexed,
    [chat] loads no index and returns a response without citations, also
    when the index directory is empty or unreadable. *)
Theorem chat_all_without_indexed_paper
    (st : Main.state) (req : Main.ChatReq) :
  Main.paperFilter req = u "all" ->
  Forall (fun p => Storage.pstatus p ≠ Storage.indexed)
    (Storage.load_papers (Main.papers st)) ->
  exists answer,
    Main.chat st req = Ok {| Main.answer := answer; Main.citations := [] |}.
Proof.
  intros Hall Hnone. unfold Main.chat, Main.chat_paper_ids.
  rewrite bool_decide_eq_false_2 by (by intros []).
  assert (Hfilter : filter (fun p => Storage.pstatus p = Storage.indexed)
                      (Storage.load_papers (Main.papers st)) = []).
  { induction Hnone as [|p ps Hp _ IH]; [done|].
    by rewrite filter_cons_False. }
  rewrite Hfilter. unfold retrieve. simpl. by eexists.
Qed.

(** X10: under the filter "all", every citation of a response is the
    formatted form of a chunk that the search found in the index of a paper
    recorded as indexed. *)
Theorem chat_all_cites_indexed_papers_only
    (st : Main.state) (req : Main.ChatReq) (resp : Main.ChatResp)
    (c : citation) :
  Main.paperFilter req = u "all" ->
  Main.chat st req = Ok resp ->
  c ∈ Main.citations resp ->
  exists p hits d s,
    p ∈ Storage.load_papers (Main.papers st) /\
    Storage.pstatus p = Storage.indexed /\
    hits_of (Main.indexes st) (Main.question req) 6 (Storage.paperId p) hits /\
    (d, s) ∈ hits /\
    c = Main.with_pdf_url (format_citation d).
Proof.
  intros Hall (docs & Hdocs & ->)%chat_ok_inv Hc.
  rewrite format_citations_fmap, <- list_fmap_compose in Hc.
  apply list_elem_of_fmap in Hc as (d & -> & Hd).
  destruct (chat_all_filter_searches_indexed_only st req docs d Hall Hdocs Hd)
    as (p & hits & s & Hp & Hst & Hhits & Hin).
  by exists p, hits, d, s.
Qed.

End ChatMoreFacts.

Section IngestMoreFacts.
Import Rag.
Context `{Cap : Capabilities}.

(** The states that [ingest] goes through: none, the one with the record
    stored as processing, or that one followed by one with a last record of
    the same id. After two writes, a request that succeeded has stored the
    record as indexed, under the key of the request, and its index loads;
    one that failed has stored the failure record. *)
Lemma ingest_trace (store_raises : Storage.status -> option exn)
    (st : Main.state) (req : Main.IngestReq) (uuid_hex : str) :
  let paper_id := Main.new_paper_id uuid_hex in
  let title := Main.title_of_key (Main.s3Key req) in
  let file1 :=
    Storage.upsert_paper
      (Main.processing_record paper_id title (Main.s3Key req))
      (Main.papers st) in
  let st1 := {| Main.papers := file1; Main.indexes := Main.indexes st |} in
  let run := Main.ingest store_raises st req uuid_hex in
  exists (last_record : Storage.paper) (disk : gmap str FAISS),
    Storage.paperId last_record = paper_id /\
    (snd run = [] \/
     snd run = [st1] \/
     snd run
     = [st1;
        {| Main.papers := Storage.upsert_paper last_record file1;
           Main.indexes := disk |}] /\
     match fst run with
     | Ok resp =>
         Main.ingested resp = paper_id /\
         Storage.pstatus last_record = Storage.indexed /\
         Storage.pdfKey last_record = Some (Main.s3Key req) /\
         Storage.title last_record = title /\
         exists vs, disk !! paper_id = Some vs
     | Raise e => last_record = Main.failed_record paper_id title
     end).
Proof.
  intros paper_id title file1 st1 run.
  pose proof (ingest_paths store_raises st req uuid_hex) as Hpaths.
  cbn zeta in Hpaths. fold paper_id title file1 st1 run in Hpaths.
  destruct (store_raises Storage.processing) as [e0|].
  { exists (Main.failed_record paper_id title), (Main.indexes st).
    split; [done|]. left. by rewrite Hpaths. }
  destruct Hpaths as (outcome & disk & E & Hrun).
  assert (Hfailure : forall e,
            match store_raises Storage.failed with
            | Some e' => run = (Raise e', [st1])
            | None =>
                run = (Raise e,
                       [st1;
                        {| Main.papers :=
                             Storage.upsert_paper
                               (Main.failed_record paper_id title) file1;
                           Main.indexes := disk |}])
            end ->
            exists (last_record : Storage.paper) (disk : gmap str FAISS),
              Storage.paperId last_record = paper_id /\
              (snd run = [] \/
               snd run = [st1] \/
               snd run
               = [st1;
                  {| Main.papers := Storage.upsert_paper last_record file1;
                     Main.indexes := disk |}] /\
               match fst run with
               | Ok resp =>
                   Main.ingested resp = paper_id /\
                   Storage.pstatus last_record = Storage.indexed /\
                   Storage.pdfKey last_record = Some (Main.s3Key req) /\
                   Storage.title last_record = title /\
                   exists vs, disk !! paper_id = Some vs
               | Raise e => last_record = Main.failed_record paper_id title
               end)).
  { intros e Hfail.
    exists (Main.failed_record paper_id title), disk. split; [done|].
    destruct (store_raises Storage.failed); rewrite Hfail; cbn [fst snd];
      [by right; left | by right; right]. }
  destruct outcome as [n|e]; [|by apply (Hfailure e)].
  destruct (store_raises Storage.indexed) as [e|]; [by apply (Hfailure e)|].
  exists (Main.indexed_record paper_id title (Main.s3Key req) n), disk.
  split; [done|]. right; right. rewrite Hrun. cbn [fst snd].
  split; [done|]. repeat (split; [done|]).
  apply ingest_pdf_ok_inv in E as (docs & vs & _ & _ & _ & Hload).
  by exists vs.
Qed.

(** X20: [ingest] does not touch the records of other papers: in every
    state it writes, a lookup of any id other than the new one answers as
    before the request. *)
Theorem ingest_keeps_other_records
    (store_raises : Storage.status -> option exn)
    (st st' : Main.state) (req : Main.IngestReq) (uuid_hex pid : str) :
  pid ≠ Main.new_paper_id uuid_hex ->
  st' ∈ snd (Main.ingest store_raises st req uuid_hex) ->
  Storage.get_paper pid (Storage.load_papers (Main.papers st'))
  = Storage.get_paper pid (Storage.load_papers (Main.papers st)).
Proof.
  intros Hne Hin.
  destruct (ingest_trace store_raises st req uuid_hex)
    as (r & disk & Hid & [Htrace|[Htrace|[Htrace _]]]);
    rewrite Htrace in Hin.
  - by apply elem_of_nil in Hin.
  - apply list_elem_of_singleton in Hin as ->. cbn [Main.papers].
    by rewrite get_paper_upsert_other.
  - apply elem_of_cons in Hin as [->|Hin]; cbn [Main.papers].
    + by rewrite get_paper_upsert_other.
    + apply list_elem_of_singleton in Hin as ->. cbn [Main.papers].
      rewrite get_paper_upsert_other by (by rewrite Hid).
      by rewrite get_paper_upsert_other.
Qed.

(** X21: [ingest] keeps the store at one record per id, and adds exactly
    one record when the new id was not stored. *)
Theorem ingest_keeps_one_record_per_id
    (store_raises : Storage.status -> option exn)
    (st st' : Main.state) (req : Main.IngestReq) (uuid_hex : str) :
  NoDup (Storage.paperId <$> Storage.load_papers (Main.papers st)) ->
  st' ∈ snd (Main.ingest store_raises st req uuid_hex) ->
  NoDup (Storage.paperId <$> Storage.load_papers (Main.papers st')) /\
  (Main.new_paper_id uuid_hex
     ∉ Storage.paperId <$> Storage.load_papers (Main.papers st) ->
   Storage.paperId <$> Storage.load_papers (Main.papers st')
   = Main.new_paper_id uuid_hex
       :: (Storage.paperId <$> Storage.load_papers (Main.papers st))).
Proof.
  intros Hnd Hin.
  assert (Hfirst :
            Main.new_paper_id uuid_hex
              ∉ Storage.paperId <$> Storage.load_papers (Main.papers st) ->
            Storage.paperId
              <$> Storage.load_papers
                    (Storage.upsert_paper
                       (Main.processing_record (Main.new_paper_id uuid_hex)
                          (Main.title_of_key (Main.s3Key req))
                          (Main.s3Key req)) (Main.papers st))
            = Main.new_paper_id uuid_hex
                :: (Storage.paperId <$> Storage.load_papers (Main.papers st))).
  { intros Hfresh. rewrite upsert_paper_ids_eq.
    by rewrite bool_decide_eq_false_2. }
  destruct (ingest_trace store_raises st req uuid_hex)
    as (r & disk & Hid & [Htrace|[Htrace|[Htrace _]]]);
    rewrite Htrace in Hin.
  - by apply elem_of_nil in Hin.
  - apply list_elem_of_singleton in Hin as ->. cbn [Main.papers].
    split; [by apply upsert_paper_NoDup | by apply Hfirst].
  - apply elem_of_cons in Hin as [->|Hin]; cbn [Main.papers].
    + split; [by apply upsert_paper_NoDup | by apply Hfirst].
    + apply list_elem_of_singleton in Hin as ->. cbn [Main.papers].
      split; [by do 2 apply upsert_paper_NoDup|].
      intros Hfresh. rewrite upsert_paper_ids_eq, Hid.
      rewrite (Hfirst Hfresh). rewrite bool_decide_eq_true_2 by left.
      done.
Qed.


(** X23: after an ingestion that succeeded, the new paper is among the
    papers that the filter "all" searches, and its index loads. *)
Theorem ingest_success_searched
    (store_raises : Storage.status -> option exn)
    (st st1 st2 : Main.state) (req : Main.IngestReq) (uuid_hex : str)
    (resp : Main.IngestResp) (ask : Main.ChatReq) :
  Main.ingest store_raises st req uuid_hex = (Ok resp, [st1; st2]) ->
  Main.paperFilter ask = u "all" ->
  Main.ingested resp = Main.new_paper_id uuid_hex /\
  Main.new_paper_id uuid_hex ∈ Main.chat_paper_ids st2 ask /\
  exists vs, load_vectorstore (Main.indexes st2) (Main.new_paper_id uuid_hex)
             = Ok vs.
Proof.
  intros Hing Hall.
  destruct (ingest_trace store_raises st req uuid_hex)
    as (r & disk & Hid & Htrace).
  rewrite Hing in Htrace. cbn [fst snd] in Htrace.
  destruct Htrace as [?|[?|[Htrace Hres]]]; [done..|].
  destruct Hres as (Hresp & Hst & _ & _ & vs & Hload).
  injection Htrace as -> ->.
  split; [done|]. split.
  - unfold Main.chat_paper_ids. rewrite bool_decide_eq_false_2 by (by intros []).
    cbn [Main.papers]. apply list_elem_of_fmap. exists r. split; [done|].
    apply list_elem_of_filter. split; [done|].
    pose proof (get_paper_upsert r
      (Storage.upsert_paper
         (Main.processing_record (Main.new_paper_id uuid_hex)
            (Main.title_of_key (Main.s3Key req)) (Main.s3Key req))
         (Main.papers st))) as Hfound.
    by apply get_paper_Some in Hfound as [Hin _].
  - exists vs. cbn [Main.indexes]. unfold load_vectorstore.
    by rewrite Hload.
Qed.

End IngestMoreFacts.

(* ===================================================================== *)
(** ** Upload keys, titles and the PDF route *)
(* ===================================================================== *)

Section UploadFacts.
Context `{Cap : Rag.Capabilities}.

Lemma last_split_elem (c : N) (s piece : str) :
  last (split c s) = Some piece -> c ∉ piece.
Proof.
  intros Hlast. pose proof (split_no_separator c s) as HF.
  rewrite Forall_forall in HF. apply HF.
  apply list_elem_of_lookup. exists (pred (length (split c s))).
  by rewrite <- last_lookup.
Qed.

(** X24: a title derived from an upload key holds neither an underscore nor
    a hyphen. *)
Theorem title_of_key_clean (key : str) :
  (95%N ∉ Main.title_of_key key) /\ (45%N ∉ Main.title_of_key key).
Proof.
  assert (Hspace : forall c : N, c ≠ 32%N -> c ∉ u " ").
  { intros c Hc Hin. by apply list_elem_of_singleton in Hin. }
  unfold Main.title_of_key. split.
  - unfold replace. apply replace_from_avoids; [by apply Hspace|].
    apply replace_from_avoids; [apply not_elem_of_nil|].
    destruct (last (split 95%N key)) as [piece|] eqn:E; simpl.
    + by eapply last_split_elem.
    + apply not_elem_of_nil.
  - apply (replace_char_gone 45%N (u " ")). by apply Hspace.
Qed.

(** X25: the title of a paper ingested under the key that [upload_url]
    issued depends on the file name only, not on the clock or the UUID: it
    is the title that the file name alone gives. For a file name without
    underscore that is the name without the extension, with spaces for
    hyphens. *)
Theorem upload_url_title (now : Z) (uuid_hex : str) (req : Main.UploadUrlReq) :
  Main.title_of_key (Main.key (Main.upload_url now uuid_hex req))
  = Main.title_of_key (Main.filename req) /\
  (95%N ∉ Main.filename req ->
   Main.title_of_key (Main.key (Main.upload_url now uuid_hex req))
   = replace (u "-") (u " ") (replace (u ".pdf") [] (Main.filename req))).
Proof.
  assert (Hlast : last (split 95%N (Main.key (Main.upload_url now uuid_hex req)))
                  = last (split 95%N (Main.filename req))).
  { cbn [Main.upload_url Main.key].
    change (u "_") with [95%N]. rewrite !(assoc_L (++)).
    rewrite <- (assoc_L (++) _ [95%N] (Main.filename req)).
    apply (last_split_app 95%N). }
  unfold Main.title_of_key. rewrite Hlast. split; [done|].
  intros Hno. by rewrite split_no_occurrence.
Qed.

Variable write_bytes : str -> list Byte.byte -> Main.write_outcome.

(** X26: a file that [upload_pdf] reports as written is served by [get_pdf]
    for every paper whose record names the upload key: the response gives
    the written path, the PDF media type and the paper title with the
    extension as download name, and the stored bytes are the uploaded ones,
    which are not empty. *)
Theorem upload_then_get_pdf
    (uploads uploads' : gmap str (list Byte.byte)) (pdf_bytes : list Byte.byte)
    (key path paper_id : str) (papers : Storage.papers_json)
    (paper : Storage.paper) :
  Main.upload_pdf write_bytes uploads pdf_bytes key
    = (Ok (Main.UploadDone path), uploads') ->
  Storage.get_paper paper_id (Storage.load_papers papers) = Some paper ->
  Storage.pdfKey paper = Some key -> key ≠ [] ->
  pdf_bytes ≠ [] /\
  uploads' !! path = Some pdf_bytes /\
  Main.get_pdf papers uploads' paper_id
  = Main.PdfFile path (u "application/pdf") (Storage.title paper ++ u ".pdf").
Proof.
  unfold Main.upload_pdf. intros Hup Hpaper Hkey Hne.
  destruct pdf_bytes as [|b bs]; [done|].
  destruct (write_bytes _ _) as [|e [remains|]]; [|done..].
  injection Hup as <- <-. split; [done|].
  split; [by rewrite lookup_insert_eq|].
  unfold Main.get_pdf. rewrite Hpaper, Hkey.
  destruct key as [|k ks]; [done|].
  rewrite bool_decide_eq_true_2; [done|].
  rewrite lookup_insert_eq. by eexists.
Qed.

End UploadFacts.

Section IngestPdfRoute.
Import Rag.
Context `{Cap : Capabilities}.


(** X30: once an ingestion has succeeded, the PDF route serves the upload
    of the request under the derived title, provided the upload is in the
    upload directory and the key is not empty. *)
Theorem ingest_success_pdf_served
    (store_raises : Storage.status -> option exn)
    (st st1 st2 : Main.state) (req : Main.IngestReq) (uuid_hex : str)
    (resp : Main.IngestResp) (uploads : gmap str (list Byte.byte)) :
  Main.ingest store_raises st req uuid_hex = (Ok resp, [st1; st2]) ->
  Main.s3Key req ≠ [] ->
  is_Some (uploads !! Main.upload_path (Main.s3Key req)) ->
  Main.get_pdf (Main.papers st2) uploads (Main.ingested resp)
  = Main.PdfFile (Main.upload_path (Main.s3Key req))
      (u "application/pdf")
      (Main.title_of_key (Main.s3Key req) ++ u ".pdf").
Proof.
  intros Hing Hne Hfile.
  destruct (ingest_trace store_raises st req uuid_hex)
    as (r & disk & Hid & Htrace).
  rewrite Hing in Htrace. cbn [fst snd] in Htrace.
  destruct Htrace as [?|[?|[Htrace Hres]]]; [done..|].
  destruct Hres as (-> & _ & Hkey & Htitle & _). injection Htrace as -> ->.
  unfold Main.get_pdf. cbn [Main.papers]. rewrite <- Hid.
  rewrite get_paper_upsert, Hkey, Htitle.
  destruct (Main.s3Key req) as [|k ks]; [done|].
  by rewrite bool_decide_eq_true_2.
Qed.

End IngestPdfRoute.

(* ===================================================================== *)
(** ** The further properties on the concrete installation *)
(* ===================================================================== *)

Import Rag Fixture.

(** X1 on the store of two papers: the first record is found as before
    when the second is overwritten. *)
Lemma upsert_paper_then_lookup_witness :
  u "p_aaaaaaaaaa"
    ≠ Storage.paperId (Main.failed_record (u "p_bbbbbbbbbb") (u "second")) /\
  Storage.get_paper (u "p_aaaaaaaaaa")
    (Storage.load_papers
       (Storage.upsert_paper
          (Main.failed_record (u "p_bbbbbbbbbb") (u "second")) two_papers))
  = Storage.get_paper (u "p_aaaaaaaaaa") (Storage.load_papers two_papers).
Proof.
  assert (Hne : u "p_aaaaaaaaaa"
                ≠ Storage.paperId
                    (Main.failed_record (u "p_bbbbbbbbbb") (u "second")))
    by (vm_compute; discriminate).
  split; [exact Hne|].
  exact (proj2 (upsert_paper_then_lookup
                  (Main.failed_record (u "p_bbbbbbbbbb") (u "second"))
                  two_papers) _ Hne).
Defined.

Lemma sample_chunk_at_1 :
  stamped_chunks (Cap := offline) [page0; page1] (u "p_0123456789")
    (u "my paper") !! 1%nat = Some chunk1.
Proof. vm_compute. reflexivity. Defined.

(** X4 on the second sample chunk. *)
Lemma stamped_chunk_ids_distinct_witness :
  stamped_chunks (Cap := offline) [page0; page1] (u "p_0123456789")
    (u "my paper") !! 1%nat = Some chunk1 /\
  metadata chunk1 !! u "chunkId" = metadata chunk1 !! u "chunkId" /\
  1%nat = 1%nat.
Proof.
  split; [exact sample_chunk_at_1|]. split; [reflexivity|].
  exact (stamped_chunk_ids_distinct (Cap := offline) _ _ _ _ _ _ _
           sample_chunk_at_1 sample_chunk_at_1 eq_refl).
Defined.

(** X5 on the second sample chunk and the loader's entry [source]. *)
Lemma stamped_chunk_keeps_loader_metadata_witness :
  stamped_chunks (Cap := offline) [page0; page1] (u "p_0123456789")
    (u "my paper") !! 1%nat = Some chunk1 /\
  exists c0, split_documents (Cap := offline) [page0; page1] !! 1%nat = Some c0 /\
    page_content chunk1 = page_content c0.
Proof.
  split; [exact sample_chunk_at_1|].
  destruct (stamped_chunk_keeps_loader_metadata (Cap := offline) _ _ _ _ _
              sample_chunk_at_1) as (c0 & Hc0 & Htext & _).
  exists c0. split; [exact Hc0 | exact Htext].
Defined.

Lemma sample_ingest_pdf :
  ingest_pdf (Cap := offline) ∅ sample_path
    (u "p_0123456789") (u "my paper") = (Ok 2, ingested_disk).
Proof. vm_compute. reflexivity. Defined.

(** X6 on the sample upload and an empty index directory. *)
Lemma ingest_pdf_then_load_witness :
  ingest_pdf (Cap := offline) ∅ sample_path
    (u "p_0123456789") (u "my paper") = (Ok 2, ingested_disk) /\
  exists vs, load_vectorstore (Cap := offline) ingested_disk (u "p_0123456789")
             = Ok vs.
Proof.
  split; [exact sample_ingest_pdf|].
  destruct (ingest_pdf_then_load (Cap := offline) _ _ _ _ _ _
              sample_ingest_pdf) as (docs & vs & _ & _ & Hload).
  exists vs. exact Hload.
Defined.

(** X7 on the sample upload: two pages, one piece each. *)
Lemma ingest_pdf_chunk_count_witness :
  ingest_pdf (Cap := offline) ∅ sample_path
    (u "p_0123456789") (u "my paper") = (Ok 2, ingested_disk) /\
  exists docs,
    loader_load (Capabilities := offline) sample_path
      = Ok docs /\
    2 = Z.of_nat
          (sum_list
             ((λ d, length (split_text (Capabilities := offline) 1000 150
                              (page_content d))) <$> docs)).
Proof.
  split; [exact sample_ingest_pdf|].
  exact (ingest_pdf_chunk_count (Cap := offline) _ _ _ _ _ _
           sample_ingest_pdf).
Defined.

(** X8 on the sample store. *)
Lemma retrieve_succeeds_iff_witness :
  (exists hitss,
     Forall2 (hits_of (Cap := offline) sample_disk sample_question (Z.max 2 6))
       [u "p_0123456789"] hitss) /\
  exists docs,
    retrieve (Cap := offline) sample_disk sample_question [u "p_0123456789"] 6
    = Ok docs.
Proof.
  assert (HF : exists hitss,
            Forall2 (hits_of (Cap := offline) sample_disk sample_question
                       (Z.max 2 6)) [u "p_0123456789"] hitss).
  { exists [sample_store]. apply sample_hits. lia. }
  split; [exact HF|].
  exact (proj2 (retrieve_succeeds_iff (Cap := offline) sample_disk
                  sample_question [u "p_0123456789"] 6) HF).
Defined.

(** X9 on the sample store and [k = -1]. *)
Lemma retrieve_negative_k_witness :
  -1 < 0 /\
  Forall2 (hits_of (Cap := offline) sample_disk sample_question (Z.max 2 (-1)))
    [u "p_0123456789"] [sample_store] /\
  exists top : list (Document * Z),
    retrieve (Cap := offline) sample_disk sample_question [u "p_0123456789"]
      (-1) = Ok (fst <$> top) /\
    Z.of_nat (length top)
    = Z.max 0 (Z.of_nat (length (concat [sample_store])) + -1).
Proof.
  assert (Hk : -1 < 0) by lia.
  assert (HF := sample_hits (Z.max 2 (-1)) ltac:(lia)).
  split; [exact Hk|]. split; [exact HF|].
  destruct (retrieve_negative_k (Cap := offline) sample_disk sample_question
              _ (-1) _ Hk HF) as (top & Hr & _ & Hlen).
  exists top. split; [exact Hr | exact Hlen].
Defined.

Lemma sample_chat :
  Main.chat indexed_state ask_all = Ok sample_response.
Proof. vm_compute. reflexivity. Defined.

Lemma sample_first_citation :
  Main.with_pdf_url (format_citation chunk0) ∈ Main.citations sample_response.
Proof. vm_compute. left. Defined.

(** X10 on the state with one indexed paper. *)
Lemma chat_all_cites_indexed_papers_only_witness :
  Main.paperFilter ask_all = u "all" /\
  Main.chat indexed_state ask_all = Ok sample_response /\
  Main.with_pdf_url (format_citation chunk0) ∈ Main.citations sample_response /\
  exists p, p ∈ Storage.load_papers (Main.papers indexed_state) /\
    Storage.pstatus p = Storage.indexed.
Proof.
  assert (Hall : Main.paperFilter ask_all = u "all") by reflexivity.
  split; [exact Hall|]. split; [exact sample_chat|].
  split; [exact sample_first_citation|].
  destruct (chat_all_cites_indexed_papers_only indexed_state ask_all _ _ Hall
              sample_chat sample_first_citation)
    as (p & hits & d & s & Hp & Hst & _).
  exists p. split; [exact Hp | exact Hst].
Defined.

(** X12 with a client whose reply has spaces around it. *)
Lemma generate_answer_never_blank_witness :
  BedrockLlm.generate_answer_nova_micro (Cap := online) sample_question
    [sample_citation] = Ok (u "Attention [1].") /\
  u "Attention [1]." ≠ [] /\ strip (u "Attention [1].") = u "Attention [1].".
Proof.
  assert (Hgen : BedrockLlm.generate_answer_nova_micro (Cap := online)
                   sample_question [sample_citation]
                 = Ok (u "Attention [1].")) by (vm_compute; reflexivity).
  split; [exact Hgen|].
  exact (generate_answer_never_blank (Cap := online) _ _ _ Hgen).
Defined.

(** X13 on a citation whose title is the integer 7. *)
Lemma generate_answer_integer_title_witness :
  integer_title_citation ∈ [sample_citation; integer_title_citation] /\
  paperTitle integer_title_citation = VInt 7 /\ 7 ≠ 0 /\
  BedrockLlm.generate_answer_nova_micro (Cap := online) sample_question
    [sample_citation; integer_title_citation]
  = Raise (Exception (u "TypeError")).
Proof.
  assert (Hin : integer_title_citation
                ∈ [sample_citation; integer_title_citation])
    by (right; left).
  assert (Ht : paperTitle integer_title_citation = VInt 7) by reflexivity.
  assert (Hz : 7 ≠ 0) by lia.
  split; [exact Hin|]. split; [exact Ht|]. split; [exact Hz|].
  exact (generate_answer_integer_title (Cap := online) sample_question _ _ _
           Hin Ht Hz).
Defined.

(** X14 on the second sample chunk, cut from the page numbered 1. *)
Lemma ingested_chunk_provenance_witness :
  stamped_chunks (Cap := offline) [page0; page1] (u "p_0123456789")
    (u "my paper") !! 1%nat = Some chunk1 /\
  metadata chunk1 !! u "page" = Some (VInt 1) /\
  metadata chunk1 !! u "section" = None /\
  u "my paper" ≠ [] /\
  BedrockLlm.provenance (Main.with_pdf_url (format_citation chunk1))
  = Ok (u "my paper" ++ u " " ++ [183%N] ++ u " p. " ++ str_of_int (1 + 1)).
Proof.
  assert (Hpage : metadata chunk1 !! u "page" = Some (VInt 1))
    by (vm_compute; reflexivity).
  assert (Hsec : metadata chunk1 !! u "section" = None)
    by (vm_compute; reflexivity).
  assert (Htitle : u "my paper" ≠ []) by (vm_compute; discriminate).
  split; [exact sample_chunk_at_1|]. split; [exact Hpage|].
  split; [exact Hsec|]. split; [exact Htitle|].
  exact (ingested_chunk_provenance (Cap := offline) _ _ _ _ _ _
           sample_chunk_at_1 Hpage Hsec Htitle).
Defined.

(** X15 on the state with one indexed paper. *)
Lemma chat_citations_at_most_six_witness :
  Main.chat indexed_state ask_all = Ok sample_response /\
  (length (Main.citations sample_response) ≤ 6)%nat.
Proof.
  split; [exact sample_chat|].
  exact (chat_citations_at_most_six indexed_state ask_all _ sample_chat).
Defined.

(** X16 on the state with one indexed paper. *)
Lemma chat_citation_links_witness :
  Main.chat indexed_state ask_all = Ok sample_response /\
  exists docs,
    retrieve (Main.indexes indexed_state) (Main.question ask_all)
      (Main.chat_paper_ids indexed_state ask_all) 6 = Ok docs /\
    length docs = length (Main.citations sample_response).
Proof.
  split; [exact sample_chat|].
  destruct (chat_citation_links indexed_state ask_all _ sample_chat)
    as (docs & Hdocs & HF).
  exists docs. split; [exact Hdocs|]. exact (Forall2_length _ _ _ HF).
Defined.

Lemma ask_missing_unknown :
  Main.paperFilter ask_missing ≠ u "all" /\
  Main.indexes stale_state !! Main.paperFilter ask_missing = None.
Proof. split; [vm_compute; discriminate | vm_compute; reflexivity]. Defined.

(** X18 on a question filtered on an id without index. *)
Lemma chat_unknown_paper_raises_witness :
  Main.paperFilter ask_missing ≠ u "all" /\
  Main.indexes stale_state !! Main.paperFilter ask_missing = None /\
  Main.chat stale_state ask_missing = Raise (Exception (u "FAISS.load_local")).
Proof.
  split; [exact (proj1 ask_missing_unknown)|].
  split; [exact (proj2 ask_missing_unknown)|].
  exact (chat_unknown_paper_raises stale_state ask_missing
           (proj1 ask_missing_unknown) (proj2 ask_missing_unknown)).
Defined.

(** X19 on the state whose only paper is recorded as failed. *)
Lemma chat_all_without_indexed_paper_witness :
  Main.paperFilter ask_all = u "all" /\
  Forall (fun p => Storage.pstatus p ≠ Storage.indexed)
    (Storage.load_papers (Main.papers stale_state)) /\
  exists answer,
    Main.chat stale_state ask_all
    = Ok {| Main.answer := answer; Main.citations := [] |}.
Proof.
  assert (Hall : Main.paperFilter ask_all = u "all") by reflexivity.
  assert (Hnone : Forall (fun p => Storage.pstatus p ≠ Storage.indexed)
                    (Storage.load_papers (Main.papers stale_state))).
  { constructor; [discriminate | constructor]. }
  split; [exact Hall|]. split; [exact Hnone|].
  exact (chat_all_without_indexed_paper stale_state ask_all Hall Hnone).
Defined.

Lemma good_run_trace :
  Main.ingest store_accepts indexed_state fresh_request other_hex
  = (Ok good_response, [run_state good_run 0; run_state good_run 1]).
Proof. reflexivity. Defined.

Lemma bad_run_trace :
  Main.ingest store_accepts indexed_state lost_request other_hex
  = (Raise (Exception (u "PyPDFLoader.load")),
     [run_state bad_run 0; run_state bad_run 1]).
Proof. reflexivity. Defined.

Lemma indexed_state_NoDup :
  NoDup (Storage.paperId <$> Storage.load_papers (Main.papers indexed_state)).
Proof. apply (bool_decide_unpack _). vm_compute. reflexivity. Defined.

Lemma bad_run_last :
  run_state bad_run 1 ∈ snd (Main.ingest store_accepts indexed_state lost_request other_hex).
Proof. rewrite bad_run_trace. right. left. Defined.

(** X20 on a failed ingestion: the record of the paper indexed before is
    found as before. *)
Lemma ingest_keeps_other_records_witness :
  u "p_0123456789" ≠ Main.new_paper_id other_hex /\
  run_state bad_run 1 ∈ snd (Main.ingest store_accepts indexed_state lost_request other_hex) /\
  Storage.get_paper (u "p_0123456789")
    (Storage.load_papers (Main.papers (run_state bad_run 1)))
  = Storage.get_paper (u "p_0123456789")
      (Storage.load_papers (Main.papers indexed_state)).
Proof.
  assert (Hne : u "p_0123456789" ≠ Main.new_paper_id other_hex)
    by (vm_compute; discriminate).
  split; [exact Hne|]. split; [exact bad_run_last|].
  exact (ingest_keeps_other_records store_accepts indexed_state _ lost_request other_hex _
           Hne bad_run_last).
Defined.

(** X21 on a failed ingestion under a new id. *)
Lemma ingest_keeps_one_record_per_id_witness :
  NoDup (Storage.paperId <$> Storage.load_papers (Main.papers indexed_state)) /\
  run_state bad_run 1 ∈ snd (Main.ingest store_accepts indexed_state lost_request other_hex) /\
  NoDup (Storage.paperId
           <$> Storage.load_papers (Main.papers (run_state bad_run 1))).
Proof.
  split; [exact indexed_state_NoDup|]. split; [exact bad_run_last|].
  exact (proj1 (ingest_keeps_one_record_per_id store_accepts indexed_state _ lost_request
                  other_hex indexed_state_NoDup bad_run_last)).
Defined.


(** X23 on a successful ingestion. *)
Lemma ingest_success_searched_witness :
  Main.ingest store_accepts indexed_state fresh_request other_hex
  = (Ok good_response, [run_state good_run 0; run_state good_run 1]) /\
  Main.paperFilter ask_all = u "all" /\
  Main.new_paper_id other_hex ∈ Main.chat_paper_ids (run_state good_run 1) ask_all.
Proof.
  split; [exact good_run_trace|]. split; [reflexivity|].
  exact (proj1 (proj2 (ingest_success_searched store_accepts indexed_state _ _ fresh_request
                         other_hex _ ask_all good_run_trace eq_refl))).
Defined.

(** X25 on a file name without underscore. *)
Lemma upload_url_title_witness :
(95%N ∉ Main.filename sample_upload_request) /\
  Main.title_of_key
    (Main.key (Main.upload_url 1700000000 (u "abcdef") sample_upload_request))
  = replace (u "-") (u " ")
      (replace (u ".pdf") [] (Main.filename sample_upload_request)).
Proof.
  assert (Hno : 95%N ∉ Main.filename sample_upload_request).
  { apply (bool_decide_unpack _). vm_compute. reflexivity. }
  split; [exact Hno|].
  exact (proj2 (upload_url_title 1700000000 (u "abcdef")
                  sample_upload_request) Hno).
Defined.

Lemma sample_upload :
  Main.upload_pdf (Cap := offline) always_writes ∅ sample_bytes sample_key
  = (Ok (Main.UploadDone sample_path), sample_uploads).
Proof. vm_compute. reflexivity. Defined.

Lemma sample_record :
  Storage.get_paper (u "p_0123456789")
    (Storage.load_papers (Main.papers indexed_state))
  = Some (Main.indexed_record (u "p_0123456789") (u "my paper") sample_key 2).
Proof. vm_compute. reflexivity. Defined.

(** X26 on the sample upload and the record of the indexed paper. *)
Lemma upload_then_get_pdf_witness :
  Main.upload_pdf (Cap := offline) always_writes ∅ sample_bytes sample_key
  = (Ok (Main.UploadDone sample_path), sample_uploads) /\
  Storage.get_paper (u "p_0123456789")
    (Storage.load_papers (Main.papers indexed_state))
  = Some (Main.indexed_record (u "p_0123456789") (u "my paper") sample_key 2) /\
  sample_key ≠ [] /\
  Main.get_pdf (Cap := offline) (Main.papers indexed_state) sample_uploads (u "p_0123456789")
  = Main.PdfFile sample_path (u "application/pdf")
      (u "my paper" ++ u ".pdf").
Proof.
  assert (Hne : sample_key ≠ []) by (vm_compute; discriminate).
  split; [exact sample_upload|]. split; [exact sample_record|].
  split; [exact Hne|].
  exact (proj2 (proj2 (upload_then_get_pdf (Cap := offline) always_writes _ _ _ _ _ _ _ _
                         sample_upload sample_record eq_refl Hne))).
Defined.


(** X30 on a successful ingestion of the sample upload. *)
Lemma ingest_success_pdf_served_witness :
  Main.ingest store_accepts indexed_state fresh_request other_hex
  = (Ok good_response, [run_state good_run 0; run_state good_run 1]) /\
  Main.s3Key fresh_request ≠ [] /\
  is_Some (sample_uploads
             !! (Main.upload_path (Cap := offline) (Main.s3Key fresh_request))) /\
  Main.get_pdf (Cap := offline) (Main.papers (run_state good_run 1)) sample_uploads
    (Main.ingested good_response)
  = Main.PdfFile (Main.upload_path (Cap := offline) (Main.s3Key fresh_request))
      (u "application/pdf")
      (Main.title_of_key (Main.s3Key fresh_request) ++ u ".pdf").
Proof.
  assert (Hne : Main.s3Key fresh_request ≠ []) by (vm_compute; discriminate).
  assert (Hfile : is_Some (sample_uploads
             !! (Main.upload_path (Cap := offline) (Main.s3Key fresh_request))))
    by (exists sample_bytes; vm_compute; reflexivity).
  split; [exact good_run_trace|]. split; [exact Hne|]. split; [exact Hfile|].
  exact (ingest_success_pdf_served store_accepts indexed_state _ _ fresh_request other_hex
           _ sample_uploads good_run_trace Hne Hfile).
Defined.
